(** * ElasticVector: the Elasticsearch vector-store adapter

    A shallow embedding of [src/mastra/stores/elastic-store.ts] (class
    [ElasticVector]) and the properties of its translation logic:
    metric mapping, filter compilation, deployment detection, index
    creation, bulk upsert with partial failure, k-NN query and partial
    update.

    Conventions of the embedding.
    - An untyped ([any]) JavaScript value is a [JsValue]; numbers are IEEE
      754 doubles, taken from the Standard Library's [spec_float].
    - Integer quantities the adapter only passes on or compares ([dims],
      document counts) are [Z], and array lengths are [nat]; [topK], which
      it multiplies, is a double.
    - The [try] block of a method is a definition of its own
      ([createIndex_attempt] for [createIndex], and so on); the method is
      that block under its [catch] handler.
    - Every method of the class is a computation in the monad [M]: it
      threads a [World] (the instance fields, the state of everything
      outside the adapter, the list of client calls issued so far and the
      list of log records) and either returns or throws.  An assignment
      made before a [throw] stays made, as in JavaScript.
    - The Elasticsearch client, the clock and the random source are a
      record [External] of transition functions over an abstract state, so
      a theorem holds for every behaviour of the cluster.
    - [await] is sequential composition: one call of a method runs to its
      end before the next one starts. *)

From Stdlib Require Import String Ascii List ZArith Bool Arith Lia.
From Stdlib Require Import DecimalString DecimalNat SpecFloat.
Import ListNotations.

Local Open Scope list_scope.
Local Open Scope string_scope.

(* ================================================================= *)
(** ** Strings *)

(** The double-quote character, for the template literals that quote an
    index name or an id. *)
Definition dq : string := String (ascii_of_nat 34) EmptyString.

Definition quoted (s : string) : string := dq ++ s ++ dq.

(** [String(n)] for a non-negative integer. *)
Definition nat_to_string (n : nat) : string :=
  NilEmpty.string_of_uint (Nat.to_uint n).

(** [String(z)] for an integer. *)
Definition Z_to_string (z : Z) : string :=
  NilZero.string_of_int (Z.to_int z).

(** [c.toLowerCase()] on one character: the letters A-Z are mapped, every
    other byte is kept. *)
Definition lower_ascii (c : ascii) : ascii :=
  let n := nat_of_ascii c in
  if ((65 <=? n)%nat && (n <=? 90)%nat)%bool then ascii_of_nat (n + 32) else c.

(** [s.toLowerCase()]. *)
Fixpoint toLowerCase (s : string) : string :=
  match s with
  | EmptyString => EmptyString
  | String c r => String (lower_ascii c) (toLowerCase r)
  end.

(** [s.startsWith(p)]. *)
Fixpoint startsWith (p s : string) : bool :=
  match p, s with
  | EmptyString, _ => true
  | String a p', String b s' => Ascii.eqb a b && startsWith p' s'
  | String _ _, EmptyString => false
  end.

(** [s.includes(p)]. *)
Fixpoint includes (p s : string) : bool :=
  startsWith p s ||
  match s with
  | EmptyString => false
  | String _ s' => includes p s'
  end.

(** [xs.join(sep)] on an array of strings. *)
Fixpoint join (sep : string) (xs : list string) : string :=
  match xs with
  | [] => EmptyString
  | [x] => x
  | x :: rest => x ++ sep ++ join sep rest
  end.

(* ================================================================= *)
(** ** JavaScript values *)

(** A JavaScript number. *)
Definition number : Type := spec_float.

(** The double nearest to an integer (binary64: 53 bits of precision). *)
Definition num_of_Z (z : Z) : number := binary_normalize 53 1024 z 0 false.

(** [+0]. *)
Definition num_zero : number := S754_zero false.

(** The numbers that are falsy: [+0], [-0] and [NaN]. *)
Definition num_falsy (x : number) : bool :=
  match x with
  | S754_zero _ | S754_nan => true
  | _ => false
  end.

(** [x * y]: the product, rounded to the nearest double. *)
Definition js_mul (x y : number) : number := SFmul 53 1024 x y.

(** [Math.max(x, y)]: [NaN] when either is [NaN], and [+0] above [-0]. *)
Definition js_max (x y : number) : number :=
  match SFcompare x y with
  | None => S754_nan
  | Some Lt => y
  | Some Gt => x
  | Some Eq => match x with S754_zero true => y | _ => x end
  end.




(** JSON-like values plus [undefined].  An object lists its own enumerable
    string-keyed properties in the order [Object.entries] enumerates
    them. *)
#[warnings="-register-all"]
Inductive JsValue : Type :=
| JUndefined
| JNull
| JBool (b : bool)
| JNum (x : number)
| JStr (s : string)
| JArr (elems : list JsValue)
| JObj (props : list (string * JsValue)).

(** The empty object literal. *)
Definition empty_object : JsValue := JObj [].

(** Truthiness, as [if (v)], [!v] and [v || d] test it. *)
Definition truthy (v : JsValue) : bool :=
  match v with
  | JUndefined | JNull => false
  | JBool b => b
  | JNum x => negb (num_falsy x)
  | JStr EmptyString => false
  | JStr (String _ _) => true
  | JArr _ | JObj _ => true
  end.

(** [typeof v]. *)
Definition typeof (v : JsValue) : string :=
  match v with
  | JUndefined => "undefined"
  | JNull => "object"
  | JBool _ => "boolean"
  | JNum _ => "number"
  | JStr _ => "string"
  | JArr _ | JObj _ => "object"
  end.

(** [Array.isArray(v)]. *)
Definition isArray (v : JsValue) : bool :=
  match v with JArr _ => true | _ => false end.

(** [v === null || v === undefined]. *)
Definition is_nullish (v : JsValue) : bool :=
  match v with JUndefined | JNull => true | _ => false end.

(** [a || b] on values. *)
Definition js_or (a b : JsValue) : JsValue := if truthy a then a else b.

(** Lookup of an own property. *)
Fixpoint own_prop (k : string) (props : list (string * JsValue)) : option JsValue :=
  match props with
  | [] => None
  | (k', v) :: rest => if String.eqb k k' then Some v else own_prop k rest
  end.

(** [v.k] for a key [k] that no prototype defines (the adapter reads
    [$eq], [$in], ..., [reason], [type]): the own property, or
    [undefined].  Reading a property of [null] or [undefined] throws; the
    callers below guard against it, and [get_opt] is the [?.] form. *)
Definition get_prop (v : JsValue) (k : string) : JsValue :=
  match v with
  | JObj props => match own_prop k props with Some x => x | None => JUndefined end
  | _ => JUndefined
  end.

(** [v?.k]. *)
Definition get_opt (v : JsValue) (k : string) : JsValue :=
  if is_nullish v then JUndefined else get_prop v k.

(** [Object.entries(v)] of an object or an array (an array enumerates its
    indices as decimal strings); primitives have no entries. *)
Definition object_entries (v : JsValue) : list (string * JsValue) :=
  match v with
  | JObj props => props
  | JArr elems => combine (map nat_to_string (seq 0 (length elems))) elems
  | _ => []
  end.

(** A thrown value: an [Error] object with its message, or any other
    value, given by what [String(v)] prints. *)
Inductive Exn : Type :=
| Error (message : string)
| Thrown (text : string).

(** [error instanceof Error ? error.message : String(error)]. *)
Definition error_message (e : Exn) : string :=
  match e with
  | Error m => m
  | Thrown t => t
  end.

(** [k in v]: a [TypeError] when [v] is not an object.  For the keys the
    adapter tests ([$eq], [$in], ...), which no prototype defines, the
    test on an object is the own-property test. *)
Definition js_in (k : string) (v : JsValue) : Exn + bool :=
  match v with
  | JObj props => inr (match own_prop k props with Some _ => true | None => false end)
  | JArr _ => inr false
  | _ => inl (Error ("Cannot use 'in' operator to search for '" ++ k ++ "'"))
  end.

(* ================================================================= *)
(** ** Metric mapping *)

Module Metric.

(** [metricMap] of [mapMetricToSimilarity]. *)
Definition metricMap : list (string * string) :=
  [ ("cosine", "cosine");
    ("euclidean", "l2_norm");
    ("dotproduct", "dot_product");
    ("dot_product", "dot_product") ].

(** [similarityMap] of [mapSimilarityToMetric]. *)
Definition similarityMap : list (string * string) :=
  [ ("cosine", "cosine");
    ("l2_norm", "euclidean");
    ("dot_product", "dotproduct") ].


(** [table[k]] on one of the two tables above, for a key [k] outside
    [inherited]: the entry of the table, if it has one. *)
Fixpoint lookup (k : string) (table : list (string * string)) : option string :=
  match table with
  | [] => None
  | (k', v) :: rest => if String.eqb k k' then Some v else lookup k rest
  end.

(** The generic metric names of the vector-store contract. *)
Definition supported : list string := ["cosine"; "euclidean"; "dotproduct"].

End Metric.

(* ================================================================= *)
(** ** The Elasticsearch client: requests and responses *)

(** [client.info()]: the fields the adapter reads. *)
Record VersionInfo : Type := mkVersionInfo {
  build_flavor : option string;
  version_number : option string
}.

Record InfoResponse : Type := mkInfoResponse {
  info_version : option VersionInfo;
  info_tagline : option string
}.

(** A mapping property as the adapter writes it ([indices.create]) and
    reads it back ([indices.getMapping]). *)
Record VectorField : Type := mkVectorField {
  vf_type : string;
  vf_dims : option Z;
  vf_index : option bool;
  vf_similarity : option string
}.

Record MetadataField : Type := mkMetadataField {
  mf_type : string;
  mf_enabled : bool;
  mf_dynamic : bool
}.

Record IndexSettings : Type := mkIndexSettings {
  number_of_shards : Z;
  number_of_replicas : Z
}.

(** The argument of [indices.create]: [index], [mappings.properties.vector],
    [mappings.properties.metadata] and, when present, [settings]. *)
Record IndexConfig : Type := mkIndexConfig {
  ic_index : string;
  ic_vector : VectorField;
  ic_metadata : MetadataField;
  ic_settings : option IndexSettings
}.

(** [indices.getMapping]: for each index of the response, what
    [.mappings?.properties?.vector] evaluates to. *)
Definition GetMappingResponse : Type := list (string * option VectorField).

(** [indices.stats]: [indices], and for each index [total?.docs?.count]. *)
Record IndicesStatsResponse : Type := mkIndicesStatsResponse {
  stats_indices : option (list (string * option Z))
}.

(** [count]. *)
Record CountResponse : Type := mkCountResponse {
  count_value : option Z
}.

(** The k-NN clause of a search.  [knn_filter] is [None] when the key is
    not set, [Some v] when it was assigned [v] (which may be
    [JUndefined]). *)
Record KnnQuery : Type := mkKnnQuery {
  knn_field : string;
  knn_query_vector : list number;
  knn_k : number;
  knn_num_candidates : number;
  knn_filter : option JsValue
}.

Record SearchRequest : Type := mkSearchRequest {
  sr_index : string;
  sr_knn : option KnnQuery;
  sr_size : number;
  sr_source : option (list string);
  sr_track_total_hits : option Z
}.

(** [hits.total]: a number, or an object with [value] and [relation]. *)
Inductive HitsTotal : Type :=
| TotalNumber (n : Z)
| TotalObject (value : option Z) (relation : string).

Record Hit : Type := mkHit {
  hit_id : string;
  hit_score : option number;
  hit_source : JsValue
}.

Record SearchResponse : Type := mkSearchResponse {
  hits_total : option HitsTotal;
  hits_hits : list Hit
}.

(** One line of the [operations] array of a bulk request: an action line
    [{ index: { _index, _id } }] or the document that follows it. *)
Inductive BulkLine : Type :=
| ActionIndex (_index : string) (_id : option string)
| Document (vector : list number) (metadata : JsValue).

Record BulkRequest : Type := mkBulkRequest {
  bulk_refresh : bool;
  bulk_operations : list BulkLine
}.

(** The [index] part of one item of a bulk response. *)
Record BulkIndexResult : Type := mkBulkIndexResult {
  item_id : option string;
  item_error : JsValue
}.

Record BulkItem : Type := mkBulkItem {
  item_index : option BulkIndexResult
}.

Record BulkResponse : Type := mkBulkResponse {
  bulk_errors : bool;
  bulk_items : list BulkItem
}.

(** The partial document of an update: each key is present or not. *)
Record UpdateBody : Type := mkUpdateBody {
  ub_vector : option (list number);
  ub_metadata : option JsValue
}.

Record UpdateRequest : Type := mkUpdateRequest {
  ur_index : string;
  ur_id : string;
  ur_doc : UpdateBody;
  ur_refresh : bool
}.

Record DeleteRequest : Type := mkDeleteRequest {
  dr_index : string;
  dr_id : string;
  dr_refresh : bool
}.

(** The client calls, with their arguments, as the adapter issues them. *)
Inductive Call : Type :=
| CallInfo
| CallIndicesExists (index : string)
| CallIndicesCreate (config : IndexConfig)
| CallIndicesGetMapping (index : string)
| CallIndicesStats (index : string)
| CallIndicesDelete (index : string)
| CallCount (index : string)
| CallSearch (request : SearchRequest)
| CallBulk (request : BulkRequest)
| CallUpdate (request : UpdateRequest)
| CallDelete (request : DeleteRequest)
| CallCatIndices.

(** Everything outside the adapter: the Elasticsearch client, the clock
    ([Date.now()]) and the random source (the nine base-36 digits
    [Math.random().toString(36).substr(2, 9)]).  Each is a transition on an
    abstract state; a client call returns its response or throws. *)
Record External (Ext : Type) : Type := mkExternal {
  client_info : Ext -> (Exn + InfoResponse) * Ext;
  client_indices_exists : string -> Ext -> (Exn + bool) * Ext;
  client_indices_create : IndexConfig -> Ext -> (Exn + unit) * Ext;
  client_indices_getMapping : string -> Ext -> (Exn + GetMappingResponse) * Ext;
  client_indices_stats : string -> Ext -> (Exn + IndicesStatsResponse) * Ext;
  client_indices_delete : string -> Ext -> (Exn + unit) * Ext;
  client_count : string -> Ext -> (Exn + CountResponse) * Ext;
  client_search : SearchRequest -> Ext -> (Exn + SearchResponse) * Ext;
  client_bulk : BulkRequest -> Ext -> (Exn + BulkResponse) * Ext;
  client_update : UpdateRequest -> Ext -> (Exn + unit) * Ext;
  client_delete : DeleteRequest -> Ext -> (Exn + unit) * Ext;
  client_cat_indices : Ext -> (Exn + list (option string)) * Ext;
  date_now : Ext -> Z * Ext;
  random_suffix : Ext -> string * Ext
}.

Arguments client_info {Ext}.
Arguments client_indices_exists {Ext}.
Arguments client_indices_create {Ext}.
Arguments client_indices_getMapping {Ext}.
Arguments client_indices_stats {Ext}.
Arguments client_indices_delete {Ext}.
Arguments client_count {Ext}.
Arguments client_search {Ext}.
Arguments client_bulk {Ext}.
Arguments client_update {Ext}.
Arguments client_delete {Ext}.
Arguments client_cat_indices {Ext}.
Arguments date_now {Ext}.
Arguments random_suffix {Ext}.

(* ================================================================= *)
(** ** Logging *)

(** The methods of [this.logger], and [console.error]. *)
Inductive Level : Type := Debug | Info | Warn | Err | ConsoleError.

(** One logging call: its message and the further arguments. *)
Record LogEntry : Type := mkLog {
  log_level : Level;
  log_message : string;
  log_data : list JsValue
}.

Definition is_warning (l : LogEntry) : bool :=
  match log_level l with Warn => true | _ => false end.

(* ================================================================= *)
(** ** The adapter's state and its monad *)

(** The instance fields of [ElasticVector], the outside world, and what
    the instance has done so far: the client calls in the order issued and
    the records passed to the logger. *)
Record World (Ext : Type) : Type := mkWorld {
  isServerless : option bool;
  deploymentChecked : bool;
  maxCountAccuracy : Z;
  external : Ext;
  trace : list Call;
  logs : list LogEntry
}.

Arguments mkWorld {Ext}.
Arguments isServerless {Ext}.
Arguments deploymentChecked {Ext}.
Arguments maxCountAccuracy {Ext}.
Arguments external {Ext}.
Arguments trace {Ext}.
Arguments logs {Ext}.

(** The configuration the constructor reads. *)
Record ElasticVectorConfig : Type := mkConfig {
  config_isServerless : option bool;
  config_maxCountAccuracy : option Z
}.

(** [new ElasticVector(config)]. *)
Definition constructor {Ext : Type} (config : ElasticVectorConfig) (e : Ext) : World Ext :=
  {| isServerless := config_isServerless config;
     deploymentChecked := false;
     maxCountAccuracy :=
       match config_maxCountAccuracy config with
       | Some n => n
       | None => 10000%Z
       end;
     external := e;
     trace := [];
     logs := [] |}.

(** A computation of the adapter: from a world, a value or a thrown
    exception, and the world it leaves. *)
Definition M (Ext A : Type) : Type := World Ext -> (Exn + A) * World Ext.

Definition ret {Ext A : Type} (a : A) : M Ext A := fun w => (inr a, w).

Definition bind {Ext A B : Type} (m : M Ext A) (k : A -> M Ext B) : M Ext B :=
  fun w =>
    match m w with
    | (inl e, w') => (inl e, w')
    | (inr a, w') => k a w'
    end.

Definition throw {Ext A : Type} (e : Exn) : M Ext A := fun w => (inl e, w).

(** [try { body } catch (error) { handler }]. *)
Definition try_catch {Ext A : Type} (body : M Ext A) (handler : Exn -> M Ext A) : M Ext A :=
  fun w =>
    match body w with
    | (inl e, w') => handler e w'
    | (inr a, w') => (inr a, w')
    end.

Declare Scope js_scope.
Delimit Scope js_scope with js.
Notation "x <- m ;; k" := (bind m (fun x => k))
  (at level 61, m at next level, right associativity) : js_scope.
Notation "m ;; k" := (bind m (fun _ => k))
  (at level 61, right associativity) : js_scope.

(** [this.logger?.level(message, ...data)]. *)
Definition log {Ext : Type} (lvl : Level) (message : string) (data : list JsValue) : M Ext unit :=
  fun w =>
    (inr tt,
     {| isServerless := isServerless w;
        deploymentChecked := deploymentChecked w;
        maxCountAccuracy := maxCountAccuracy w;
        external := external w;
        trace := trace w;
        logs := (logs w ++ [mkLog lvl message data])%list |}).

(** [await this.client.method(args)]: the call is recorded, the outside
    world moves on, and the response is returned or the error thrown. *)
Definition call {Ext R : Type} (c : Call) (f : Ext -> (Exn + R) * Ext) : M Ext R :=
  fun w =>
    let (r, e') := f (external w) in
    (r,
     {| isServerless := isServerless w;
        deploymentChecked := deploymentChecked w;
        maxCountAccuracy := maxCountAccuracy w;
        external := e';
        trace := (trace w ++ [c])%list;
        logs := logs w |}).

(** A read of the clock or of the random source. *)
Definition sample {Ext R : Type} (f : Ext -> R * Ext) : M Ext R :=
  fun w =>
    let (r, e') := f (external w) in
    (inr r,
     {| isServerless := isServerless w;
        deploymentChecked := deploymentChecked w;
        maxCountAccuracy := maxCountAccuracy w;
        external := e';
        trace := trace w;
        logs := logs w |}).

Definition read {Ext A : Type} (field : World Ext -> A) : M Ext A :=
  fun w => (inr (field w), w).

(** [this.isServerless = v]. *)
Definition set_isServerless {Ext : Type} (v : option bool) : M Ext unit :=
  fun w =>
    (inr tt,
     {| isServerless := v;
        deploymentChecked := deploymentChecked w;
        maxCountAccuracy := maxCountAccuracy w;
        external := external w;
        trace := trace w;
        logs := logs w |}).

(** [this.deploymentChecked = v]. *)
Definition set_deploymentChecked {Ext : Type} (v : bool) : M Ext unit :=
  fun w =>
    (inr tt,
     {| isServerless := isServerless w;
        deploymentChecked := v;
        maxCountAccuracy := maxCountAccuracy w;
        external := external w;
        trace := trace w;
        logs := logs w |}).

(** [for (const x of xs) { acc = body(x, acc) }]. *)
Fixpoint for_of {Ext A S : Type} (xs : list A) (body : A -> S -> M Ext S) (acc : S) : M Ext S :=
  match xs with
  | [] => ret acc
  | x :: rest => bind (body x acc) (for_of rest body)
  end.

(** [xs.map(f)] for a callback with effects. *)
Fixpoint map_M {Ext A B : Type} (f : A -> M Ext B) (xs : list A) : M Ext (list B) :=
  match xs with
  | [] => ret []
  | x :: rest => bind (f x) (fun y => bind (map_M f rest) (fun ys => ret (y :: ys)))
  end.

(** The elements of an array with their indices, as a callback
    [(x, i) => ...] receives them. *)
Definition indexed {A : Type} (xs : list A) : list (nat * A) :=
  combine (seq 0 (length xs)) xs.

Definition js_of_string_opt (s : option string) : JsValue :=
  match s with Some x => JStr x | None => JUndefined end.

Definition js_of_Z (z : Z) : JsValue := JNum (num_of_Z z).

Definition js_of_nat (n : nat) : JsValue := JNum (num_of_Z (Z.of_nat n)).

Definition js_of_vector (v : list number) : JsValue := JArr (map JNum v).

Local Open Scope js_scope.

(* ================================================================= *)
(** ** The class [ElasticVector] *)

Section ElasticVector.

Context {Ext : Type}.
Variable ext : External Ext.

#[local] Abbreviation M := (M Ext).

Definition flavor_name (serverless : bool) : string :=
  if serverless then "Serverless" else "Standard".

(** [private async detectServerless(): Promise<boolean>]. *)
Definition detectServerless : M bool :=
  checked <- read deploymentChecked ;;
  if checked : bool then
    (* Return cached result if already detected *)
    cached <- read isServerless ;;
    ret (match cached with Some b => b | None => false end)
  else
    explicit <- read isServerless ;;
    match explicit with
    | Some b =>
        (* Use explicit configuration if provided *)
        set_deploymentChecked true ;;
        log Info ("Using explicit deployment type: " ++ flavor_name b) [] ;;
        ret b
    | None =>
        try_catch
          (info <- call CallInfo (client_info ext) ;;
           let flavor :=
             match info_version info with
             | Some v => build_flavor v
             | None => None
             end in
           let isBuildFlavorServerless :=
             match flavor with
             | Some f => String.eqb f "serverless"
             | None => false
             end in
           let isTaglineServerless :=
             match info_tagline info with
             | Some t => includes "serverless" (toLowerCase t)
             | None => false
             end in
           let detected := isBuildFlavorServerless || isTaglineServerless in
           set_isServerless (Some detected) ;;
           set_deploymentChecked true ;;
           log Info
             ("Auto-detected " ++ flavor_name detected ++ " Elasticsearch deployment")
             [JObj [("buildFlavor", js_of_string_opt flavor);
                    ("version",
                     js_of_string_opt
                       match info_version info with
                       | Some v => version_number v
                       | None => None
                       end);
                    ("detectionMethod",
                     JStr (if isBuildFlavorServerless then "build_flavor" else "tagline"))]] ;;
           ret detected)
          (fun error =>
             log Warn
               ("Could not auto-detect deployment type, assuming Standard Elasticsearch. " ++
                "Set isServerless: true explicitly in config if using Serverless.")
               [JObj [("error", JStr (error_message error))]] ;;
             set_isServerless (Some false) ;;
             set_deploymentChecked true ;;
             ret false)
    end.

(** [private mapMetricToSimilarity(metric: string)]. *)
Definition mapMetricToSimilarity (metric : string) : M string :=
  match Metric.lookup (toLowerCase metric) Metric.metricMap with
  | Some similarity => ret similarity
  | None =>
      log Warn
        ("Unknown metric " ++ quoted metric ++ ", defaulting to 'cosine'. " ++
         "Supported metrics: " ++ join ", " (map fst Metric.metricMap)) [] ;;
      ret "cosine"
  end.

(** [private mapSimilarityToMetric(similarity: string)]. *)
Definition mapSimilarityToMetric (similarity : string) : string :=
  match Metric.lookup similarity Metric.similarityMap with
  | Some metric => metric
  | None => "cosine"
  end.

(** The field a clause targets: [`metadata.${key}.keyword`] for exact
    matching, [`metadata.${key}`] for ranges. *)
Definition keyword_field (key : string) : string := "metadata." ++ key ++ ".keyword".

Definition raw_field (key : string) : string := "metadata." ++ key.

(** [{ term: { [field]: v } }]. *)
Definition term_clause (field : string) (v : JsValue) : JsValue :=
  JObj [("term", JObj [(field, v)])].

(** [{ terms: { [field]: v } }]. *)
Definition terms_clause (field : string) (v : JsValue) : JsValue :=
  JObj [("terms", JObj [(field, v)])].

(** [{ bool: { must_not: { term: { [field]: v } } } }]. *)
Definition must_not_clause (field : string) (v : JsValue) : JsValue :=
  JObj [("bool", JObj [("must_not", term_clause field v)])].

(** [{ range: { [field]: { [op]: v } } }]. *)
Definition range_clause (field op : string) (v : JsValue) : JsValue :=
  JObj [("range", JObj [(field, JObj [(op, v)])])].

(** [key in value], inside the monad. *)
Definition has_key (k : string) (v : JsValue) : M bool :=
  match js_in k v with
  | inl e => throw e
  | inr b => ret b
  end.

(** The body of the loop of [buildElasticFilter] for one entry; [must] is
    the array built so far and the result is the array after the entry. *)
Definition filter_entry (entry : string * JsValue) (must : list JsValue) : M (list JsValue) :=
  let (key, value) := entry in
  if is_nullish value then ret must
  else if String.eqb (typeof value) "object" && negb (isArray value) then
    (* Handle operator-based filters *)
    has_eq <- has_key "$eq" value ;;
    if has_eq : bool then
      ret (must ++ [term_clause (keyword_field key) (get_prop value "$eq")])%list
    else
      has_in <- has_key "$in" value ;;
      if has_in && isArray (get_prop value "$in") then
        ret (must ++ [terms_clause (keyword_field key) (get_prop value "$in")])%list
      else
        has_ne <- has_key "$ne" value ;;
        if has_ne : bool then
          ret (must ++ [must_not_clause (keyword_field key) (get_prop value "$ne")])%list
        else
          has_gt <- has_key "$gt" value ;;
          if has_gt : bool then
            ret (must ++ [range_clause (raw_field key) "gt" (get_prop value "$gt")])%list
          else
            has_gte <- has_key "$gte" value ;;
            if has_gte : bool then
              ret (must ++ [range_clause (raw_field key) "gte" (get_prop value "$gte")])%list
            else
              has_lt <- has_key "$lt" value ;;
              if has_lt : bool then
                ret (must ++ [range_clause (raw_field key) "lt" (get_prop value "$lt")])%list
              else
                has_lte <- has_key "$lte" value ;;
                if has_lte : bool then
                  ret (must ++ [range_clause (raw_field key) "lte" (get_prop value "$lte")])%list
                else
                  log Warn
                    ("Unsupported filter operator for field " ++ quoted key ++ ":")
                    [value] ;;
                  ret must
  else
    (* Simple equality - use .keyword for exact match on text fields *)
    ret (must ++ [term_clause (keyword_field key) value])%list.

(** [must.length > 0 ? { bool: { must } } : undefined]. *)
Definition bool_must (must : list JsValue) : JsValue :=
  if (0 <? length must)%nat
  then JObj [("bool", JObj [("must", JArr must)])]
  else JUndefined.

(** [private buildElasticFilter(filter: any): any]. *)
Definition buildElasticFilter (filter : JsValue) : M JsValue :=
  if negb (truthy filter) || negb (String.eqb (typeof filter) "object") then
    ret JUndefined
  else
    must <- for_of (object_entries filter) filter_entry [] ;;
    ret (bool_must must).

(** [IndexStats], the result of [describeIndex]. *)
Record IndexStats : Type := mkIndexStats {
  stats_dimension : Z;
  stats_metric : string;
  stats_count : Z
}.

(** [response[indexName]] on a response keyed by index name. *)
Fixpoint by_index {A : Type} (indexName : string) (response : list (string * A)) : option A :=
  match response with
  | [] => None
  | (name, a) :: rest =>
      if String.eqb indexName name then Some a else by_index indexName rest
  end.

(** [n || 0] on a count that may be missing. *)
Definition count_or_zero (n : option Z) : Z :=
  match n with Some c => c | None => 0%Z end.

(** The characters between "(" and the limit in the approximate-count
    warning, as the source file holds them: seven bytes, C3 A2 E2 80 B0
    C2 A5. *)
Definition geq_sign : string :=
  String (ascii_of_nat 195) (String (ascii_of_nat 162)
    (String (ascii_of_nat 226) (String (ascii_of_nat 128) (String (ascii_of_nat 176)
      (String (ascii_of_nat 194) (String (ascii_of_nat 165) EmptyString)))))).

(** The count of a serverless index: the count API, and when it fails a
    search of size 0 for the total hits. *)
Definition serverless_count (indexName : string) : M Z :=
  try_catch
    (countResponse <- call (CallCount indexName) (client_count ext indexName) ;;
     let vectorCount := count_or_zero (count_value countResponse) in
     log Debug
       ("Retrieved count for serverless index " ++ quoted indexName ++ ": " ++
        Z_to_string vectorCount) [] ;;
     ret vectorCount)
    (fun countError =>
       log Warn
         ("Count API failed for serverless index " ++ quoted indexName ++
          ", using search fallback")
         [JObj [("error", JStr (error_message countError))]] ;;
       accuracy <- read maxCountAccuracy ;;
       let request :=
         {| sr_index := indexName;
            sr_knn := None;
            sr_size := num_of_Z 0;
            sr_source := None;
            sr_track_total_hits := Some accuracy |} in
       searchResponse <- call (CallSearch request) (client_search ext request) ;;
       let vectorCount :=
         match hits_total searchResponse with
         | Some (TotalNumber n) => n
         | Some (TotalObject value _) => count_or_zero value
         | None => 0%Z
         end in
       match hits_total searchResponse with
       | Some (TotalObject _ relation) =>
           if String.eqb relation "gte" then
             (* Warn if count is approximate *)
             log Warn
               ("Count for " ++ quoted indexName ++ " is approximate (" ++ geq_sign ++
                Z_to_string vectorCount ++ "). " ++
                "Increase maxCountAccuracy for exact counts on large indices.") [] ;;
             ret vectorCount
           else ret vectorCount
       | _ => ret vectorCount
       end).

(** The count of a standard index: the stats API, and when it fails the
    count API. *)
Definition standard_count (indexName : string) : M Z :=
  try_catch
    (stats <- call (CallIndicesStats indexName) (client_indices_stats ext indexName) ;;
     let vectorCount :=
       match stats_indices stats with
       | Some indices =>
           match by_index indexName indices with
           | Some c => count_or_zero c
           | None => 0%Z
           end
       | None => 0%Z
       end in
     log Debug
       ("Retrieved stats for index " ++ quoted indexName ++ ": " ++
        Z_to_string vectorCount ++ " documents") [] ;;
     ret vectorCount)
    (fun statsError =>
       log Warn
         ("Stats API failed for index " ++ quoted indexName ++ ", using count fallback")
         [JObj [("error", JStr (error_message statsError))]] ;;
       countResponse <- call (CallCount indexName) (client_count ext indexName) ;;
       ret (count_or_zero (count_value countResponse))).

(** The [try] block of [describeIndex]. *)
Definition describeIndex_attempt (indexName : string) : M IndexStats :=
  serverless <- detectServerless ;;
  mappings <- call (CallIndicesGetMapping indexName)
                   (client_indices_getMapping ext indexName) ;;
  let vectorField :=
    match by_index indexName mappings with
    | Some field => field
    | None => None
    end in
  match vectorField with
  | None =>
      throw (Error
        ("Index " ++ quoted indexName ++ " is not configured for vector search. " ++
         "Expected a 'vector' field of type 'dense_vector', " ++
         "but field not found"))
  | Some field =>
      if negb (String.eqb (vf_type field) "dense_vector") then
        throw (Error
          ("Index " ++ quoted indexName ++ " is not configured for vector search. " ++
           "Expected a 'vector' field of type 'dense_vector', " ++
           "but found type '" ++ vf_type field ++ "'"))
      else
        match vf_dims field with
        | None | Some 0%Z =>
            throw (Error
              ("Index " ++ quoted indexName ++
               " has a 'vector' field but dimensions are not specified"))
        | Some dimension =>
            let similarity :=
              match vf_similarity field with
              | None | Some EmptyString => "cosine"
              | Some s => s
              end in
            let metric := mapSimilarityToMetric similarity in
            (* Get vector count using deployment-appropriate method *)
            vectorCount <-
              (if serverless : bool
               then serverless_count indexName
               else standard_count indexName) ;;
            ret {| stats_dimension := dimension;
                   stats_metric := metric;
                   stats_count := vectorCount |}
        end
  end.

(** [async describeIndex(params): Promise<IndexStats>]. *)
Definition describeIndex (indexName : string) : M IndexStats :=
  try_catch
    (describeIndex_attempt indexName)
    (fun error =>
       let errorMessage := error_message error in
       log Err ("Failed to describe index " ++ quoted indexName ++ ": " ++ errorMessage) [] ;;
       throw (Error ("Failed to describe index " ++ quoted indexName ++ ": " ++ errorMessage))).

(** Modelled from the spec: [validateExistingIndex], which [createIndex]
    calls on an index that exists, is inherited from the base class
    [MastraVector] of the package [@mastra/core]; its code is not among the
    sources.  Section 4.3 of the specification: it "validates the existing
    schema's dimension and metric against the requested ones; mismatch is a
    fatal validation error (surfaced, not auto-migrated)"; section 7: the
    error "carries the offending index name and the mismatch detail".  The
    existing schema is read with [describeIndex], the adapter's own reader
    of an index's dimension and metric. *)
Definition validateExistingIndex (indexName : string) (dimension : Z) (metric : string)
  : M unit :=
  existing <- describeIndex indexName ;;
  if negb (stats_dimension existing =? dimension)%Z then
    throw (Error
      ("Index " ++ quoted indexName ++ " already exists with " ++
       Z_to_string (stats_dimension existing) ++ " dimensions, but " ++
       Z_to_string dimension ++ " dimensions were requested"))
  else if negb (String.eqb (stats_metric existing) metric) then
    throw (Error
      ("Index " ++ quoted indexName ++ " already exists with metric " ++
       quoted (stats_metric existing) ++ ", but metric " ++ quoted metric ++
       " was requested"))
  else ret tt.

Record CreateIndexParams : Type := mkCreateIndexParams {
  ci_indexName : string;
  ci_dimension : Z;
  ci_metric : option string
}.

(** The [try] block of [createIndex]. *)
Definition createIndex_attempt (params : CreateIndexParams) : M unit :=
  let indexName := ci_indexName params in
  let dimension := ci_dimension params in
  let metric := match ci_metric params with Some m => m | None => "cosine" end in
  exists_ <- call (CallIndicesExists indexName) (client_indices_exists ext indexName) ;;
  if exists_ : bool then
    try_catch
      (validateExistingIndex indexName dimension metric ;;
       log Info ("Index " ++ quoted indexName ++ " already exists and is valid") [] ;;
       ret tt)
      (fun validationError =>
         throw (Error
           ("Index " ++ quoted indexName ++
            " exists but does not match the required configuration: " ++
            error_message validationError)))
  else
    serverless <- detectServerless ;;
    similarity <- mapMetricToSimilarity metric ;;
    let indexConfig :=
      {| ic_index := indexName;
         ic_vector :=
           {| vf_type := "dense_vector";
              vf_dims := Some dimension;
              vf_index := Some true;
              vf_similarity := Some similarity |};
         ic_metadata :=
           {| mf_type := "object"; mf_enabled := true; mf_dynamic := true |};
         (* Only configure shards/replicas for non-serverless deployments *)
         ic_settings :=
           if serverless : bool then None
           else Some {| number_of_shards := 1; number_of_replicas := 0 |} |} in
    call (CallIndicesCreate indexConfig) (client_indices_create ext indexConfig) ;;
    log Info
      ("Created " ++ flavor_name serverless ++ " Elasticsearch index " ++ quoted indexName)
      [JObj [("dimension", js_of_Z dimension);
             ("metric", JStr metric);
             ("similarity", JStr similarity)]] ;;
    ret tt.

(** [async createIndex(params: CreateIndexParams): Promise<void>]. *)
Definition createIndex (params : CreateIndexParams) : M unit :=
  let indexName := ci_indexName params in
  try_catch
    (createIndex_attempt params)
    (fun error =>
       let errorMessage := error_message error in
       log Err ("Failed to create index " ++ quoted indexName ++ ": " ++ errorMessage) [] ;;
       throw (Error ("Failed to create index " ++ quoted indexName ++ ": " ++ errorMessage))).

Record UpsertVectorParams : Type := mkUpsertVectorParams {
  up_indexName : string;
  up_vectors : list (list number);
  up_metadata : option (list JsValue);
  up_ids : option (list string)
}.

(** [`vec_${Date.now()}_${i}_${Math.random().toString(36).substr(2, 9)}`]. *)
Definition generate_id (i : nat) : M string :=
  now <- sample (date_now ext) ;;
  suffix <- sample (random_suffix ext) ;;
  ret ("vec_" ++ Z_to_string now ++ "_" ++ nat_to_string i ++ "_" ++ suffix).

(** [item.index?.error] and [item.index?._id] of a bulk response item. *)
Definition index_error (item : BulkItem) : JsValue :=
  match item_index item with
  | Some r => item_error r
  | None => JUndefined
  end.

Definition index_id (item : BulkItem) : option string :=
  match item_index item with
  | Some r => item_id r
  | None => None
  end.

(** [erroredIds.includes(id)] for a string [id]: the ids of the response
    that are missing are equal to no string. *)
Definition includes_id (erroredIds : list (option string)) (id : string) : bool :=
  existsb (fun e => match e with Some s => String.eqb s id | None => false end) erroredIds.

(** One element of [errorDetails]. *)
Definition error_detail (item : BulkItem) : JsValue :=
  JObj [("id", js_of_string_opt (index_id item));
        ("error", js_or (get_opt (index_error item) "reason") (index_error item));
        ("type", get_opt (index_error item) "type")].

(** The [try] block of [upsert]. *)
Definition upsert_attempt (params : UpsertVectorParams) : M (list string) :=
  let indexName := up_indexName params in
  let vectors := up_vectors params in
  let metadata := match up_metadata params with Some m => m | None => [] end in
  (* Generate unique IDs if not provided *)
  vectorIds <-
    match up_ids params with
    | Some ids => ret ids
    | None => map_M generate_id (seq 0 (length vectors))
    end ;;
  let operations :=
    flat_map
      (fun '(index, vec) =>
         [ActionIndex indexName (nth_error vectorIds index);
          Document vec (js_or (nth index metadata JUndefined) empty_object)])
      (indexed vectors) in
  let request := {| bulk_refresh := true; bulk_operations := operations |} in
  response <- call (CallBulk request) (client_bulk ext request) ;;
  if bulk_errors response then
    let erroredItems := filter (fun item => truthy (index_error item)) (bulk_items response) in
    let erroredIds := map index_id erroredItems in
    let errorDetails := map error_detail (firstn 3 erroredItems) in
    let errorMessage :=
      "Failed to upsert " ++ nat_to_string (length erroredIds) ++ "/" ++
      nat_to_string (length vectors) ++ " vectors" in
    (* the console receives [errorDetails] as JSON text *)
    log ConsoleError (errorMessage ++ ". Sample errors:") [JArr errorDetails] ;;
    log Err errorMessage
      [JObj [("failedCount", js_of_nat (length erroredIds));
             ("totalCount", js_of_nat (length vectors));
             ("sampleErrors", JArr errorDetails)]] ;;
    (* Still return successfully inserted IDs *)
    let successfulIds := filter (fun id => negb (includes_id erroredIds id)) vectorIds in
    if (length successfulIds =? 0)%nat then
      throw (Error (errorMessage ++ ". All operations failed. See logs for details."))
    else ret successfulIds
  else
    log Info
      ("Successfully upserted " ++ nat_to_string (length vectors) ++ " vectors to " ++
       quoted indexName) [] ;;
    ret vectorIds.

(** [async upsert(params: UpsertVectorParams): Promise<string[]>]. *)
Definition upsert (params : UpsertVectorParams) : M (list string) :=
  let indexName := up_indexName params in
  try_catch
    (upsert_attempt params)
    (fun error =>
       let errorMessage := error_message error in
       log Err ("Failed to upsert vectors to " ++ quoted indexName ++ ": " ++ errorMessage) [] ;;
       throw (Error ("Failed to upsert vectors to " ++ quoted indexName ++ ": " ++ errorMessage))).

Record QueryVectorParams : Type := mkQueryVectorParams {
  qp_indexName : string;
  qp_queryVector : list number;
  qp_topK : option number;
  qp_filter : JsValue;
  qp_includeVector : option bool
}.

Record QueryResult : Type := mkQueryResult {
  qr_id : string;
  qr_score : number;
  qr_metadata : JsValue;
  qr_vector : JsValue
}.

(** [knnQuery.filter = v]. *)
Definition set_knn_filter (knnQuery : KnnQuery) (v : JsValue) : KnnQuery :=
  {| knn_field := knn_field knnQuery;
     knn_query_vector := knn_query_vector knnQuery;
     knn_k := knn_k knnQuery;
     knn_num_candidates := knn_num_candidates knnQuery;
     knn_filter := Some v |}.

(** [hit._score || 0]. *)
Definition score_or_zero (s : option number) : number :=
  match s with
  | Some x => if num_falsy x then num_zero else x
  | None => num_zero
  end.

(** The callback of [response.hits.hits.map] in [query]. *)
Definition result_of_hit (includeVector : bool) (hit : Hit) : QueryResult :=
  {| qr_id := hit_id hit;
     qr_score := score_or_zero (hit_score hit);
     qr_metadata := js_or (get_opt (hit_source hit) "metadata") empty_object;
     qr_vector := if includeVector then get_opt (hit_source hit) "vector" else JUndefined |}.

(** The [try] block of [query]. *)
Definition query_attempt (params : QueryVectorParams) : M (list QueryResult) :=
  let indexName := qp_indexName params in
  let queryVector := qp_queryVector params in
  let topK := match qp_topK params with Some k => k | None => num_of_Z 10 end in
  let filter := qp_filter params in
  let includeVector := match qp_includeVector params with Some b => b | None => false end in
  let knnQuery :=
    {| knn_field := "vector";
       knn_query_vector := queryVector;
       knn_k := topK;
       (* Search more candidates for better recall *)
       knn_num_candidates := js_max (js_mul topK (num_of_Z 10)) (num_of_Z 100);
       knn_filter := None |} in
  (* Apply metadata filters if provided *)
  knnQuery <-
    (if truthy filter
     then compiled <- buildElasticFilter filter ;; ret (set_knn_filter knnQuery compiled)
     else ret knnQuery) ;;
  let sourceFields :=
    if includeVector then ["metadata"; "vector"] else ["metadata"] in
  let request :=
    {| sr_index := indexName;
       sr_knn := Some knnQuery;
       sr_size := topK;
       sr_source := Some sourceFields;
       sr_track_total_hits := None |} in
  response <- call (CallSearch request) (client_search ext request) ;;
  let results := map (result_of_hit includeVector) (hits_hits response) in
  log Debug
    ("Query returned " ++ nat_to_string (length results) ++ " results from " ++
     quoted indexName) [] ;;
  ret results.

(** [async query(params: QueryVectorParams<any>): Promise<QueryResult[]>]. *)
Definition query (params : QueryVectorParams) : M (list QueryResult) :=
  let indexName := qp_indexName params in
  try_catch
    (query_attempt params)
    (fun error =>
       let errorMessage := error_message error in
       log Err ("Failed to query vectors from " ++ quoted indexName ++ ": " ++ errorMessage) [] ;;
       throw (Error ("Failed to query vectors from " ++ quoted indexName ++ ": " ++ errorMessage))).

(** The callbacks of [listIndexes]: [index.index] is the name, and
    [name.startsWith('.')] throws when the name is missing. *)
Definition keep_user_index (name : option string) (kept : list string) : M (list string) :=
  match name with
  | Some n => ret (if startsWith "." n then kept else (kept ++ [n])%list)
  | None => throw (Error "Cannot read properties of undefined (reading 'startsWith')")
  end.

(** The [try] block of [listIndexes]. *)
Definition listIndexes_attempt : M (list string) :=
  response <- call CallCatIndices (client_cat_indices ext) ;;
  indices <- for_of response keep_user_index [] ;;
  log Debug ("Found " ++ nat_to_string (length indices) ++ " user indices") [] ;;
  ret indices.

(** [async listIndexes(): Promise<string[]>]. *)
Definition listIndexes : M (list string) :=
  try_catch
    listIndexes_attempt
    (fun error =>
       let errorMessage := error_message error in
       log Err ("Failed to list indexes: " ++ errorMessage) [] ;;
       throw (Error ("Failed to list indexes: " ++ errorMessage))).

(** The [try] block of [deleteIndex]. *)
Definition deleteIndex_attempt (indexName : string) : M unit :=
  call (CallIndicesDelete indexName) (client_indices_delete ext indexName) ;;
  log Info ("Successfully deleted index " ++ quoted indexName) [] ;;
  ret tt.

(** [async deleteIndex(params: DeleteIndexParams): Promise<void>]. *)
Definition deleteIndex (indexName : string) : M unit :=
  try_catch
    (deleteIndex_attempt indexName)
    (fun error =>
       let errorMessage := error_message error in
       log Err ("Failed to delete index " ++ quoted indexName ++ ": " ++ errorMessage) [] ;;
       throw (Error ("Failed to delete index " ++ quoted indexName ++ ": " ++ errorMessage))).

(** The [update] field of [UpdateVectorParams]: each of the two fields may
    be missing. *)
Record VectorUpdate : Type := mkVectorUpdate {
  update_vector : option (list number);
  update_metadata : option JsValue
}.

Record UpdateVectorParams : Type := mkUpdateVectorParams {
  uv_indexName : string;
  uv_id : string;
  uv_update : VectorUpdate
}.

(** [Object.keys(updateBody).length]. *)
Definition body_keys (body : UpdateBody) : nat :=
  (match ub_vector body with Some _ => 1 | None => 0 end) +
  (match ub_metadata body with Some _ => 1 | None => 0 end).

(** The [try] block of [updateVector]. *)
Definition updateVector_attempt (params : UpdateVectorParams) : M unit :=
  let indexName := uv_indexName params in
  let id := uv_id params in
  let update := uv_update params in
  let updateBody :=
    {| ub_vector :=
         (* [if (update.vector)]: an array is truthy *)
         update_vector update;
       ub_metadata :=
         match update_metadata update with
         | Some m => if truthy m then Some m else None
         | None => None
         end |} in
  if (body_keys updateBody =? 0)%nat then
    log Warn ("Update called for vector " ++ quoted id ++ " with no changes") [] ;;
    ret tt
  else
    let request :=
      {| ur_index := indexName; ur_id := id; ur_doc := updateBody; ur_refresh := true |} in
    call (CallUpdate request) (client_update ext request) ;;
    log Info
      ("Successfully updated vector " ++ quoted id ++ " in index " ++ quoted indexName) [] ;;
    ret tt.

(** [async updateVector(params: UpdateVectorParams): Promise<void>]. *)
Definition updateVector (params : UpdateVectorParams) : M unit :=
  let indexName := uv_indexName params in
  let id := uv_id params in
  try_catch
    (updateVector_attempt params)
    (fun error =>
       let errorMessage := error_message error in
       log Err
         ("Failed to update vector " ++ quoted id ++ " in " ++ quoted indexName ++ ": " ++
          errorMessage) [] ;;
       throw (Error
         ("Failed to update vector " ++ quoted id ++ " in " ++ quoted indexName ++ ": " ++
          errorMessage))).

(** The [try] block of [deleteVector]. *)
Definition deleteVector_attempt (indexName id : string) : M unit :=
  let request := {| dr_index := indexName; dr_id := id; dr_refresh := true |} in
  call (CallDelete request) (client_delete ext request) ;;
  log Info
    ("Successfully deleted vector " ++ quoted id ++ " from index " ++ quoted indexName) [] ;;
  ret tt.

(** [async deleteVector(params: DeleteVectorParams): Promise<void>]. *)
Definition deleteVector (indexName id : string) : M unit :=
  try_catch
    (deleteVector_attempt indexName id)
    (fun error =>
       let errorMessage := error_message error in
       log Err
         ("Failed to delete vector " ++ quoted id ++ " from " ++ quoted indexName ++ ": " ++
          errorMessage) [] ;;
       throw (Error
         ("Failed to delete vector " ++ quoted id ++ " from " ++ quoted indexName ++ ": " ++
          errorMessage))).

End ElasticVector.

(* ================================================================= *)
(** ** Notions used by the statements *)

(** The world after some more records were logged. *)
Definition add_logs {Ext : Type} (w : World Ext) (entries : list LogEntry) : World Ext :=
  {| isServerless := isServerless w;
     deploymentChecked := deploymentChecked w;
     maxCountAccuracy := maxCountAccuracy w;
     external := external w;
     trace := trace w;
     logs := (logs w ++ entries)%list |}.

(** The operators [buildElasticFilter] knows. *)
Definition recognized_operators : list string :=
  ["$eq"; "$in"; "$ne"; "$gt"; "$gte"; "$lt"; "$lte"].

(** The range operators with the comparison each one compiles to. *)
Definition range_operators : list (string * string) :=
  [("$gt", "gt"); ("$gte", "gte"); ("$lt", "lt"); ("$lte", "lte")].

(** An operator object none of whose keys is a recognized operator. *)
Definition unrecognized_leaf (value : JsValue) : bool :=
  match value with
  | JObj props =>
      forallb
        (fun k => match own_prop k props with Some _ => false | None => true end)
        recognized_operators
  | _ => false
  end.

(** The clauses one entry of a filter contributes, and the warnings it
    causes: the pure content of [filter_entry] (lemma [filter_entry_run]). *)
Definition entry_clauses (entry : string * JsValue) : list JsValue :=
  let (key, value) := entry in
  match value with
  | JUndefined | JNull => []
  | JObj props =>
      match own_prop "$eq" props with
      | Some v => [term_clause (keyword_field key) v]
      | None =>
      match own_prop "$in" props with
      | Some (JArr vs) => [terms_clause (keyword_field key) (JArr vs)]
      | _ =>
      match own_prop "$ne" props with
      | Some v => [must_not_clause (keyword_field key) v]
      | None =>
      match own_prop "$gt" props with
      | Some v => [range_clause (raw_field key) "gt" v]
      | None =>
      match own_prop "$gte" props with
      | Some v => [range_clause (raw_field key) "gte" v]
      | None =>
      match own_prop "$lt" props with
      | Some v => [range_clause (raw_field key) "lt" v]
      | None =>
      match own_prop "$lte" props with
      | Some v => [range_clause (raw_field key) "lte" v]
      | None => []
      end end end end end end end
  | _ => [term_clause (keyword_field key) value]
  end.

Definition unsupported_warning (key : string) (value : JsValue) : LogEntry :=
  mkLog Warn ("Unsupported filter operator for field " ++ quoted key ++ ":") [value].

Definition entry_warnings (entry : string * JsValue) : list LogEntry :=
  let (key, value) := entry in
  match value with
  | JObj _ =>
      match entry_clauses entry with
      | [] => [unsupported_warning key value]
      | _ => []
      end
  | _ => []
  end.

(** The number of cluster-introspection calls ([client.info()]) among
    some calls. *)
Fixpoint infos (calls : list Call) : nat :=
  match calls with
  | [] => 0
  | CallInfo :: rest => S (infos rest)
  | _ :: rest => infos rest
  end.

(** The calls that create an index. *)
Definition is_create (c : Call) : bool :=
  match c with CallIndicesCreate _ => true | _ => false end.

(** The public operations of the adapter, with their arguments. *)
Inductive Operation : Type :=
| CreateIndex (params : CreateIndexParams)
| Upsert (params : UpsertVectorParams)
| Query (params : QueryVectorParams)
| ListIndexes
| DescribeIndex (indexName : string)
| DeleteIndex (indexName : string)
| UpdateVector (params : UpdateVectorParams)
| DeleteVector (indexName id : string).

(** The world an operation leaves, whether it returns or throws. *)
Definition perform {Ext : Type} (ext : External Ext) (op : Operation) (w : World Ext) : World Ext :=
  match op with
  | CreateIndex params => snd (createIndex ext params w)
  | Upsert params => snd (upsert ext params w)
  | Query params => snd (query ext params w)
  | ListIndexes => snd (listIndexes ext w)
  | DescribeIndex indexName => snd (describeIndex ext indexName w)
  | DeleteIndex indexName => snd (deleteIndex ext indexName w)
  | UpdateVector params => snd (updateVector ext params w)
  | DeleteVector indexName id => snd (deleteVector ext indexName id w)
  end.

(** A sequence of operations on one instance, each awaited before the
    next. *)
Definition perform_all {Ext : Type} (ext : External Ext) (ops : list Operation) (w : World Ext)
  : World Ext :=
  fold_left (fun w op => perform ext op w) ops w.

(** A relation [R] between a world and the worlds the adapter reaches from
    it: a preorder that holds across any step which leaves the instance
    fields alone and issues only [allowed] calls. *)
Class Stable {Ext : Type} (R : World Ext -> World Ext -> Prop) : Type := {
  allowed : Call -> Prop;
  stable_refl : forall w, R w w;
  stable_trans : forall a b c, R a b -> R b c -> R a c;
  stable_quiet :
    forall w e calls entries,
      Forall allowed calls ->
      R w {| isServerless := isServerless w;
             deploymentChecked := deploymentChecked w;
             maxCountAccuracy := maxCountAccuracy w;
             external := e;
             trace := (trace w ++ calls)%list;
             logs := (logs w ++ entries)%list |}
}.

(** A computation keeps [R] when the world it leaves, returning or
    throwing, is related to the world it started from. *)
Definition preserves {Ext : Type} (R : World Ext -> World Ext -> Prop) {A : Type}
           (m : M Ext A) : Prop :=
  forall w, R w (snd (m w)).

(** What deployment detection guarantees from one world to a later one:
    introspection calls are only added, and at most one while the
    deployment is unchecked, after which it is checked; a checked
    deployment stays checked with the same flavor; an explicit flavor
    stays and causes no introspection. *)
Definition detection_stable {Ext : Type} (w w' : World Ext) : Prop :=
  infos (trace w) <= infos (trace w') /\
  infos (trace w') + (if deploymentChecked w' then 0 else 1) <=
  infos (trace w) + (if deploymentChecked w then 0 else 1) /\
  (deploymentChecked w = true ->
   deploymentChecked w' = true /\ isServerless w' = isServerless w) /\
  (isServerless w <> None ->
   isServerless w' = isServerless w /\ infos (trace w') = infos (trace w)).

(** The later world was reached without an index-create call. *)
Definition no_create {Ext : Type} (w w' : World Ext) : Prop :=
  exists calls,
    trace w' = (trace w ++ calls)%list /\ Forall (fun c => is_create c = false) calls.

(** The calls that change the cluster. *)
Definition is_write (c : Call) : bool :=
  match c with
  | CallIndicesCreate _ | CallIndicesDelete _ | CallBulk _ | CallUpdate _ | CallDelete _ => true
  | _ => false
  end.

(** A call that writes documents asks for them to be visible to the next
    search ([refresh: true]); the other calls have nothing to ask. *)
Definition refreshes (c : Call) : bool :=
  match c with
  | CallBulk request => bulk_refresh request
  | CallUpdate request => ur_refresh request
  | CallDelete request => dr_refresh request
  | _ => true
  end.

(** The call is the cluster introspection. *)
Definition is_info (c : Call) : bool :=
  match c with CallInfo => true | _ => false end.

(** The call concerns the index [indexName] only, or no index at all (the
    cluster introspection). *)
Definition targets (indexName : string) (c : Call) : bool :=
  match c with
  | CallInfo => true
  | CallCatIndices => false
  | CallIndicesExists index
  | CallIndicesGetMapping index
  | CallIndicesStats index
  | CallIndicesDelete index
  | CallCount index => String.eqb index indexName
  | CallIndicesCreate config => String.eqb (ic_index config) indexName
  | CallSearch request => String.eqb (sr_index request) indexName
  | CallBulk request =>
      forallb
        (fun line =>
           match line with
           | ActionIndex index _ => String.eqb index indexName
           | Document _ _ => true
           end)
        (bulk_operations request)
  | CallUpdate request => String.eqb (ur_index request) indexName
  | CallDelete request => String.eqb (dr_index request) indexName
  end.

(** The later world was reached by calls that all satisfy [p]. *)
Definition issues {Ext : Type} (p : Call -> bool) (w w' : World Ext) : Prop :=
  exists calls,
    trace w' = (trace w ++ calls)%list /\ Forall (fun c => p c = true) calls.

(** The later world was reached without touching the deployment fields,
    the configuration or the cluster introspection. *)
Definition detection_untouched {Ext : Type} (w w' : World Ext) : Prop :=
  isServerless w' = isServerless w /\
  deploymentChecked w' = deploymentChecked w /\
  maxCountAccuracy w' = maxCountAccuracy w /\
  issues (fun c => negb (is_info c)) w w'.

(** The index an operation is about, when it is about one. *)
Definition index_of (op : Operation) : option string :=
  match op with
  | CreateIndex params => Some (ci_indexName params)
  | Upsert params => Some (up_indexName params)
  | Query params => Some (qp_indexName params)
  | ListIndexes => None
  | DescribeIndex indexName => Some indexName
  | DeleteIndex indexName => Some indexName
  | UpdateVector params => Some (uv_indexName params)
  | DeleteVector indexName _ => Some indexName
  end.

(** The operations that only read. *)
Definition reads_only (op : Operation) : bool :=
  match op with
  | Query _ | ListIndexes | DescribeIndex _ => true
  | _ => false
  end.

(** The operations that need to know the deployment flavor. *)
Definition needs_flavor (op : Operation) : bool :=
  match op with
  | CreateIndex _ | DescribeIndex _ => true
  | _ => false
  end.

(** [createIndex], the one operation that runs the inherited validation
    of an existing index. *)
Definition validates_existing (op : Operation) : bool :=
  match op with
  | CreateIndex _ => true
  | _ => false
  end.

(** The operations that are one request to the cluster. *)
Definition one_request (op : Operation) : bool :=
  match op with
  | Upsert _ | Query _ | ListIndexes | DeleteIndex _ | DeleteVector _ _ => true
  | _ => false
  end.

(** The outcome of an operation, its value forgotten: the exception when
    it throws. *)
Definition thrown_by {Ext : Type} (ext : External Ext) (op : Operation) (w : World Ext)
  : option Exn :=
  let outcome {A : Type} (r : (Exn + A) * World Ext) : option Exn :=
    match fst r with inl e => Some e | inr _ => None end in
  match op with
  | CreateIndex params => outcome (createIndex ext params w)
  | Upsert params => outcome (upsert ext params w)
  | Query params => outcome (query ext params w)
  | ListIndexes => outcome (listIndexes ext w)
  | DescribeIndex indexName => outcome (describeIndex ext indexName w)
  | DeleteIndex indexName => outcome (deleteIndex ext indexName w)
  | UpdateVector params => outcome (updateVector ext params w)
  | DeleteVector indexName id => outcome (deleteVector ext indexName id w)
  end.

(** What the [try] block of an operation does, its value forgotten: the
    exception when it throws, and the world it leaves. *)
Definition attempted {Ext : Type} (ext : External Ext) (op : Operation) (w : World Ext)
  : option Exn * World Ext :=
  let outcome {A : Type} (r : (Exn + A) * World Ext) : option Exn * World Ext :=
    (match fst r with inl e => Some e | inr _ => None end, snd r) in
  match op with
  | CreateIndex params => outcome (createIndex_attempt ext params w)
  | Upsert params => outcome (upsert_attempt ext params w)
  | Query params => outcome (query_attempt ext params w)
  | ListIndexes => outcome (listIndexes_attempt ext w)
  | DescribeIndex indexName => outcome (describeIndex_attempt ext indexName w)
  | DeleteIndex indexName => outcome (deleteIndex_attempt ext indexName w)
  | UpdateVector params => outcome (updateVector_attempt ext params w)
  | DeleteVector indexName id => outcome (deleteVector_attempt ext indexName id w)
  end.

(** The words before the cause in the message of a failed operation. *)
Definition failure_prefix (op : Operation) : string :=
  match op with
  | CreateIndex params => "Failed to create index " ++ quoted (ci_indexName params) ++ ": "
  | Upsert params => "Failed to upsert vectors to " ++ quoted (up_indexName params) ++ ": "
  | Query params => "Failed to query vectors from " ++ quoted (qp_indexName params) ++ ": "
  | ListIndexes => "Failed to list indexes: "
  | DescribeIndex indexName => "Failed to describe index " ++ quoted indexName ++ ": "
  | DeleteIndex indexName => "Failed to delete index " ++ quoted indexName ++ ": "
  | UpdateVector params =>
      "Failed to update vector " ++ quoted (uv_id params) ++ " in " ++
      quoted (uv_indexName params) ++ ": "
  | DeleteVector indexName id =>
      "Failed to delete vector " ++ quoted id ++ " from " ++ quoted indexName ++ ": "
  end.

(** The world after a call that answered. *)
Definition after_call {Ext : Type} (w : World Ext) (c : Call) (e : Ext) : World Ext :=
  {| isServerless := isServerless w;
     deploymentChecked := deploymentChecked w;
     maxCountAccuracy := maxCountAccuracy w;
     external := e;
     trace := (trace w ++ [c])%list;
     logs := logs w |}.

(** The shape of a generated id for position [i]. *)
Definition generated_for {Ext : Type} (ext : External Ext) (i : nat) (id : string) : Prop :=
  exists now e,
    id = "vec_" ++ Z_to_string now ++ "_" ++ nat_to_string i ++ "_" ++ fst (random_suffix ext e).

(** A cluster that answers every call of a kind with the same response;
    it has no state of its own.  The concrete runs below use it. *)
Record Cluster : Type := mkCluster {
  answer_info : Exn + InfoResponse;
  answer_exists : Exn + bool;
  answer_getMapping : Exn + GetMappingResponse;
  answer_stats : Exn + IndicesStatsResponse;
  answer_count : Exn + CountResponse;
  answer_search : Exn + SearchResponse;
  answer_bulk : Exn + BulkResponse
}.

Definition scripted (c : Cluster) : External unit :=
  {| client_info := fun e => (answer_info c, e);
     client_indices_exists := fun _ e => (answer_exists c, e);
     client_indices_create := fun _ e => (inr tt, e);
     client_indices_getMapping := fun _ e => (answer_getMapping c, e);
     client_indices_stats := fun _ e => (answer_stats c, e);
     client_indices_delete := fun _ e => (inr tt, e);
     client_count := fun _ e => (answer_count c, e);
     client_search := fun _ e => (answer_search c, e);
     client_bulk := fun _ e => (answer_bulk c, e);
     client_update := fun _ e => (inr tt, e);
     client_delete := fun _ e => (inr tt, e);
     client_cat_indices := fun e => (inr [], e);
     date_now := fun e => (0%Z, e);
     random_suffix := fun e => ("000000000", e) |}.

Definition unreachable : Exn := Error "connect ECONNREFUSED".

(** A cluster on which every call fails. *)
Definition down : Cluster :=
  {| answer_info := inl unreachable;
     answer_exists := inl unreachable;
     answer_getMapping := inl unreachable;
     answer_stats := inl unreachable;
     answer_count := inl unreachable;
     answer_search := inl unreachable;
     answer_bulk := inl unreachable |}.

(** A standard cluster holding the index [memory] with 1536 dimensions,
    cosine similarity and three documents. *)
Definition with_memory_index : Cluster :=
  {| answer_info :=
       inr {| info_version :=
                Some {| build_flavor := Some "default"; version_number := Some "8.15.0" |};
              info_tagline := Some "You Know, for Search" |};
     answer_exists := inr true;
     answer_getMapping :=
       inr [("memory",
             Some {| vf_type := "dense_vector";
                     vf_dims := Some 1536%Z;
                     vf_index := Some true;
                     vf_similarity := Some "cosine" |})];
     answer_stats := inr {| stats_indices := Some [("memory", Some 3%Z)] |};
     answer_count := inr {| count_value := Some 3%Z |};
     answer_search := inl unreachable;
     answer_bulk := inl unreachable |}.

(** The error of a document the cluster refuses. *)
Definition mapping_error : JsValue :=
  JObj [("type", JStr "mapper_parsing_exception");
        ("reason", JStr "failed to parse field [vector]")].

(** A cluster whose bulk response reports the items given: each with the
    id it was sent under and whether it failed. *)
Definition bulk_item (id : string) (failed : bool) : BulkItem :=
  {| item_index :=
       Some {| item_id := Some id;
               item_error := if failed then mapping_error else JUndefined |} |}.

Definition answering_bulk (items : list BulkItem) : Cluster :=
  {| answer_info := inl unreachable;
     answer_exists := inl unreachable;
     answer_getMapping := inl unreachable;
     answer_stats := inl unreachable;
     answer_count := inl unreachable;
     answer_search := inl unreachable;
     answer_bulk :=
       inr {| bulk_errors := existsb (fun item => truthy (index_error item)) items;
              bulk_items := items |} |}.

(** A batch for the index [memory]: the ids and the vector sent under
    each. *)
Definition batch (records : list (string * list number)) : UpsertVectorParams :=
  {| up_indexName := "memory";
     up_vectors := map snd records;
     up_metadata := None;
     up_ids := Some (map fst records) |}.

(** A vector of the two dimensions of the index, and one of the wrong
    length, which the cluster refuses. *)
Definition well_formed : list number := [num_of_Z 1; num_of_Z 0].

Definition too_short : list number := [num_of_Z 1].

(** Whether an item of a bulk response reports a failure. *)
Definition failed (item : BulkItem) : bool := truthy (index_error item).

(** A serverless cluster holding the index [memory] with 1536 dimensions,
    dot-product similarity and five documents; it has no stats API. *)
Definition serverless_memory : Cluster :=
  {| answer_info :=
       inr {| info_version :=
                Some {| build_flavor := Some "serverless"; version_number := Some "8.11.0" |};
              info_tagline := Some "You Know, for Search" |};
     answer_exists := inr true;
     answer_getMapping :=
       inr [("memory",
             Some {| vf_type := "dense_vector";
                     vf_dims := Some 1536%Z;
                     vf_index := Some true;
                     vf_similarity := Some "dot_product" |})];
     answer_stats := inl unreachable;
     answer_count := inr {| count_value := Some 5%Z |};
     answer_search := inl unreachable;
     answer_bulk := inl unreachable |}.

(** A standard cluster whose index [memory] has no [vector] field. *)
Definition unmapped : Cluster :=
  {| answer_info :=
       inr {| info_version :=
                Some {| build_flavor := Some "default"; version_number := Some "8.15.0" |};
              info_tagline := Some "You Know, for Search" |};
     answer_exists := inr true;
     answer_getMapping := inr [("memory", None)];
     answer_stats := inl unreachable;
     answer_count := inl unreachable;
     answer_search := inl unreachable;
     answer_bulk := inl unreachable |}.

(** A standard cluster without any index. *)
Definition without_index : Cluster :=
  {| answer_info :=
       inr {| info_version :=
                Some {| build_flavor := Some "default"; version_number := Some "8.15.0" |};
              info_tagline := Some "You Know, for Search" |};
     answer_exists := inr false;
     answer_getMapping := inl unreachable;
     answer_stats := inl unreachable;
     answer_count := inl unreachable;
     answer_search := inl unreachable;
     answer_bulk := inl unreachable |}.

(** A cluster that lists the given index names and fails every other
    call. *)
Definition listing (names : list (option string)) : External unit :=
  {| client_info := fun e => (inl unreachable, e);
     client_indices_exists := fun _ e => (inl unreachable, e);
     client_indices_create := fun _ e => (inl unreachable, e);
     client_indices_getMapping := fun _ e => (inl unreachable, e);
     client_indices_stats := fun _ e => (inl unreachable, e);
     client_indices_delete := fun _ e => (inl unreachable, e);
     client_count := fun _ e => (inl unreachable, e);
     client_search := fun _ e => (inl unreachable, e);
     client_bulk := fun _ e => (inl unreachable, e);
     client_update := fun _ e => (inl unreachable, e);
     client_delete := fun _ e => (inl unreachable, e);
     client_cat_indices := fun e => (inr names, e);
     date_now := fun e => (0%Z, e);
     random_suffix := fun e => ("000000000", e) |}.

(** A query for the three nearest neighbours in [memory]. *)
Definition nearest : QueryVectorParams :=
  {| qp_indexName := "memory";
     qp_queryVector := [num_of_Z 1; num_of_Z 0];
     qp_topK := Some (num_of_Z 3);
     qp_filter := JUndefined;
     qp_includeVector := None |}.

(** A fresh instance with the default configuration. *)
Definition fresh : World unit := constructor (mkConfig None None) tt.

(* ================================================================= *)
(** * Properties *)

(** ** The monad *)

Lemma add_logs_nil {Ext : Type} (w : World Ext) : add_logs w [] = w.
Proof.
  destruct w; unfold add_logs; cbn. now rewrite app_nil_r.
Qed.

Lemma add_logs_app {Ext : Type} (w : World Ext) (l1 l2 : list LogEntry) :
  add_logs (add_logs w l1) l2 = add_logs w (l1 ++ l2)%list.
Proof.
  unfold add_logs; cbn. now rewrite app_assoc.
Qed.

Lemma log_run {Ext : Type} (lvl : Level) (msg : string) (data : list JsValue) (w : World Ext) :
  log lvl msg data w = (inr tt, add_logs w [mkLog lvl msg data]).
Proof. reflexivity. Qed.

(** A loop whose body always returns [acc ++ f x] and logs [g x] returns
    the concatenation and logs the concatenation. *)
Lemma for_of_append {Ext A B : Type} (body : A -> list B -> M Ext (list B))
      (f : A -> list B) (g : A -> list LogEntry) :
  (forall x acc w, body x acc w = (inr (acc ++ f x)%list, add_logs w (g x))) ->
  forall xs acc w,
    for_of xs body acc w = (inr (acc ++ flat_map f xs)%list, add_logs w (flat_map g xs)).
Proof.
  intros Hbody xs. induction xs as [|x xs IH]; intros acc w; cbn.
  - now rewrite app_nil_r, add_logs_nil.
  - unfold bind. rewrite Hbody, IH, add_logs_app, <- app_assoc. reflexivity.
Qed.

(** ** Metric mapping *)

(** C3.  The metric mapping round-trips on the supported set: for each of
    cosine, euclidean and dotproduct, [mapMetricToSimilarity] returns a
    similarity (without a warning) that [mapSimilarityToMetric] maps back
    to the metric. *)
Theorem metric_roundtrip {Ext : Type} (m : string) (w : World Ext) :
  In m Metric.supported ->
  exists similarity,
    mapMetricToSimilarity m w = (inr similarity, w) /\
    mapSimilarityToMetric similarity = m.
Proof.
  intros Hm. cbn in Hm.
  destruct Hm as [<- | [<- | [<- | []]]].
  - exists "cosine". split; reflexivity.
  - exists "l2_norm". split; reflexivity.
  - exists "dot_product". split; reflexivity.
Qed.

Lemma metric_roundtrip_witness :
  In "euclidean" Metric.supported /\
  exists similarity,
    mapMetricToSimilarity "euclidean" fresh = (inr similarity, fresh) /\
    mapSimilarityToMetric similarity = "euclidean".
Proof.
  split; [cbn; tauto | apply (metric_roundtrip "euclidean" fresh); cbn; tauto].
Defined.

(** The two directions are inverse bijections between the supported
    metrics and the three similarities of the backend. *)
Lemma similarity_roundtrip {Ext : Type} (s : string) (w : World Ext) :
  In s ["cosine"; "l2_norm"; "dot_product"] ->
  mapMetricToSimilarity (mapSimilarityToMetric s) w = (inr s, w).
Proof.
  intros Hs. cbn in Hs.
  destruct Hs as [<- | [<- | [<- | []]]]; reflexivity.
Qed.

(** ** Filter translation *)

(** One pass of the loop never throws: it appends the entry's clauses and
    logs the entry's warnings. *)
Lemma filter_entry_run {Ext : Type} (entry : string * JsValue) (must : list JsValue)
      (w : World Ext) :
  filter_entry entry must w =
  (inr (must ++ entry_clauses entry)%list, add_logs w (entry_warnings entry)).
Proof.
  destruct entry as [key value].
  destruct value as [ | | b | x | s | elems | props];
    try (cbn; rewrite ?add_logs_nil, ?app_nil_r; reflexivity).
  unfold filter_entry, entry_warnings, entry_clauses.
  cbn [is_nullish typeof isArray andb negb].
  change (String.eqb "object" "object") with true. cbn iota.
  unfold bind, has_key, js_in, get_prop, ret.
  destruct (own_prop "$eq" props) as [v|];
    [rewrite add_logs_nil; reflexivity|].
  destruct (own_prop "$in" props) as [[ | | b | x | s | elems | props']|];
    cbn [isArray andb]; try (rewrite add_logs_nil; reflexivity);
  (destruct (own_prop "$ne" props) as [v|];
    [rewrite add_logs_nil; reflexivity|];
   destruct (own_prop "$gt" props) as [v|];
    [rewrite add_logs_nil; reflexivity|];
   destruct (own_prop "$gte" props) as [v|];
    [rewrite add_logs_nil; reflexivity|];
   destruct (own_prop "$lt" props) as [v|];
    [rewrite add_logs_nil; reflexivity|];
   destruct (own_prop "$lte" props) as [v|];
    [rewrite add_logs_nil; reflexivity|];
   rewrite log_run, app_nil_r; reflexivity).
Qed.

(** The compiled form of a filter object: the clauses of its entries in
    order, under [bool.must], or [undefined] when there are none; the
    world only gains the warnings. *)
Lemma buildElasticFilter_object {Ext : Type} (entries : list (string * JsValue))
      (w : World Ext) :
  buildElasticFilter (JObj entries) w =
  (inr (bool_must (flat_map entry_clauses entries)),
   add_logs w (flat_map entry_warnings entries)).
Proof.
  unfold buildElasticFilter. cbn [truthy typeof negb orb object_entries].
  change (String.eqb "object" "object") with true. cbn [negb].
  unfold bind.
  rewrite (for_of_append filter_entry entry_clauses entry_warnings)
    by (intros; apply filter_entry_run).
  reflexivity.
Qed.

(** Anything that is not an object or an array compiles to [undefined]. *)
Lemma buildElasticFilter_primitive {Ext : Type} (filter : JsValue) (w : World Ext) :
  match filter with JArr _ | JObj _ => False | _ => True end ->
  buildElasticFilter filter w = (inr JUndefined, w).
Proof.
  destruct filter as [ | | b | x | s | elems | props]; intros H; try contradiction;
    unfold buildElasticFilter; cbn [truthy typeof]; try reflexivity.
  - destruct b; reflexivity.
  - destruct (num_falsy x); reflexivity.
  - destruct s; reflexivity.
Qed.

(** [buildElasticFilter] returns on every input, and changes nothing but
    the log. *)
Lemma buildElasticFilter_total {Ext : Type} (filter : JsValue) (w : World Ext) :
  exists compiled warnings,
    buildElasticFilter filter w = (inr compiled, add_logs w warnings).
Proof.
  destruct filter as [ | | b | x | s | elems | props].
  1-5: exists JUndefined, []; rewrite add_logs_nil;
       apply buildElasticFilter_primitive; exact I.
  - eexists _, _. unfold buildElasticFilter.
    cbn [truthy typeof negb orb].
    change (String.eqb "object" "object") with true. cbn [negb].
    unfold bind.
    rewrite (for_of_append filter_entry entry_clauses entry_warnings)
      by (intros; apply filter_entry_run).
    reflexivity.
  - eexists _, _. apply buildElasticFilter_object.
Qed.

Lemma unrecognized_entry (key : string) (value : JsValue) :
  unrecognized_leaf value = true ->
  entry_clauses (key, value) = [] /\
  entry_warnings (key, value) = [unsupported_warning key value].
Proof.
  destruct value as [ | | b | x | s | elems | props]; try discriminate.
  unfold unrecognized_leaf, recognized_operators, entry_warnings, entry_clauses.
  cbn [forallb].
  destruct (own_prop "$eq" props); [discriminate|].
  destruct (own_prop "$in" props); [discriminate|].
  destruct (own_prop "$ne" props); [discriminate|].
  destruct (own_prop "$gt" props); [discriminate|].
  destruct (own_prop "$gte" props); [discriminate|].
  destruct (own_prop "$lt" props); [discriminate|].
  destruct (own_prop "$lte" props); [discriminate|].
  intros _. split; reflexivity.
Qed.

Lemma nullish_entry (key : string) (value : JsValue) :
  is_nullish value = true ->
  entry_clauses (key, value) = [] /\ entry_warnings (key, value) = [].
Proof.
  destruct value; try discriminate; intros _; split; reflexivity.
Qed.

Lemma flat_map_all_nil {A B : Type} (f : A -> list B) (xs : list A) :
  Forall (fun x => f x = []) xs -> flat_map f xs = [].
Proof.
  induction 1 as [|x xs Hx _ IH]; cbn; [reflexivity|].
  now rewrite Hx, IH.
Qed.

(** C4.  Filter translation.  A leaf [{field: {$in: [...]}}] compiles to a
    [terms] predicate on [metadata.<field>.keyword], the exact-match form
    of the field; a leaf [{field: {$gte: n}}], and likewise [$gt], [$lt]
    and [$lte], compiles to a [range] predicate on [metadata.<field>], with
    no [.keyword] suffix; this holds for a filter of that one leaf and for
    the leaf at any place among others, whose clauses keep their order
    around it; and the empty filter object compiles to [undefined], that
    is to no filter, not to a query that matches nothing. *)
Theorem filter_translation {Ext : Type} (w : World Ext) :
  (forall field vs,
      buildElasticFilter (JObj [(field, JObj [("$in", JArr vs)])]) w =
      (inr (JObj [("bool", JObj [("must", JArr
         [JObj [("terms", JObj [("metadata." ++ field ++ ".keyword", JArr vs)])]])])]),
       w)) /\
  (forall field key op n,
      In (key, op) range_operators ->
      buildElasticFilter (JObj [(field, JObj [(key, n)])]) w =
      (inr (JObj [("bool", JObj [("must", JArr
         [JObj [("range", JObj [("metadata." ++ field, JObj [(op, n)])])]])])]),
       w)) /\
  (forall pre post field vs,
      exists before after,
        fst (buildElasticFilter (JObj pre) w) = inr (bool_must before) /\
        fst (buildElasticFilter (JObj post) w) = inr (bool_must after) /\
        fst (buildElasticFilter (JObj (pre ++ (field, JObj [("$in", JArr vs)]) :: post)%list) w) =
        inr (bool_must
               (before ++ terms_clause (keyword_field field) (JArr vs) :: after)%list)) /\
  (forall pre post field key op n,
      In (key, op) range_operators ->
      exists before after,
        fst (buildElasticFilter (JObj pre) w) = inr (bool_must before) /\
        fst (buildElasticFilter (JObj post) w) = inr (bool_must after) /\
        fst (buildElasticFilter (JObj (pre ++ (field, JObj [(key, n)]) :: post)%list) w) =
        inr (bool_must
               (before ++ range_clause (raw_field field) op n :: after)%list)) /\
  buildElasticFilter (JObj []) w = (inr JUndefined, w).
Proof.
  assert (Hrange : forall field key op n,
             In (key, op) range_operators ->
             entry_clauses (field, JObj [(key, n)]) =
               [JObj [("range", JObj [("metadata." ++ field, JObj [(op, n)])])]] /\
             entry_warnings (field, JObj [(key, n)]) = []).
  { intros field key op n Hop. cbn in Hop.
    destruct Hop as [E | [E | [E | [E | []]]]]; inversion E; subst; split; reflexivity. }
  split; [|split; [|split; [|split]]].
  - intros field vs. rewrite buildElasticFilter_object. cbn [flat_map app].
    rewrite add_logs_nil. reflexivity.
  - intros field key op n Hop. rewrite buildElasticFilter_object. cbn [flat_map app].
    destruct (Hrange field key op n Hop) as [-> ->]. cbn [app].
    rewrite add_logs_nil. reflexivity.
  - intros pre post field vs.
    exists (flat_map entry_clauses pre), (flat_map entry_clauses post).
    rewrite !buildElasticFilter_object. cbn [fst].
    rewrite flat_map_app. cbn [flat_map]. auto.
  - intros pre post field key op n Hop.
    exists (flat_map entry_clauses pre), (flat_map entry_clauses post).
    rewrite !buildElasticFilter_object. cbn [fst].
    rewrite flat_map_app. cbn [flat_map].
    destruct (Hrange field key op n Hop) as [-> _]. auto.
  - rewrite buildElasticFilter_object. cbn [flat_map]. rewrite add_logs_nil. reflexivity.
Qed.

Lemma filter_translation_witness :
  In ("$gte", "gte") range_operators /\
  buildElasticFilter (JObj [("count", JObj [("$gte", js_of_Z 5)])]) fresh =
  (inr (JObj [("bool", JObj [("must", JArr
     [JObj [("range", JObj [("metadata.count", JObj [("gte", js_of_Z 5)])])]])])]),
   fresh).
Proof.
  split.
  - cbn; tauto.
  - apply (proj1 (proj2 (filter_translation fresh)) "count" "$gte" "gte" (js_of_Z 5)).
    cbn; tauto.
Defined.

(** C6.  An unrecognized operator is skipped with a warning and is never
    fatal: [buildElasticFilter] returns on every filter; a leaf whose
    operator object has none of the recognized operator keys leaves the
    compiled filter equal to the one of the filter without that leaf, and
    a warning naming its field is logged; and when every leaf is such a
    leaf the result is [undefined], no filter. *)
Theorem unsupported_operator_skipped {Ext : Type} (w : World Ext) :
  (forall filter, exists compiled w', buildElasticFilter filter w = (inr compiled, w')) /\
  (forall pre key value post,
      unrecognized_leaf value = true ->
      fst (buildElasticFilter (JObj (pre ++ (key, value) :: post)%list) w) =
      fst (buildElasticFilter (JObj (pre ++ post)%list) w) /\
      In (mkLog Warn ("Unsupported filter operator for field " ++ quoted key ++ ":") [value])
         (logs (snd (buildElasticFilter (JObj (pre ++ (key, value) :: post)%list) w)))) /\
  (forall entries,
      Forall (fun entry => unrecognized_leaf (snd entry) = true) entries ->
      fst (buildElasticFilter (JObj entries) w) = inr JUndefined).
Proof.
  split; [|split].
  - intros filter.
    destruct (buildElasticFilter_total filter w) as (compiled & warnings & H).
    eauto.
  - intros pre key value post Hv.
    destruct (unrecognized_entry key value Hv) as [Hc Hw].
    rewrite !buildElasticFilter_object. cbn [fst snd].
    rewrite !flat_map_app. cbn [flat_map]. rewrite Hc, Hw. split; [reflexivity|].
    unfold add_logs; cbn [logs].
    apply in_or_app; right. apply in_or_app; right. left. reflexivity.
  - intros entries Hall.
    rewrite buildElasticFilter_object. cbn [fst].
    rewrite flat_map_all_nil; [reflexivity|].
    eapply Forall_impl; [|exact Hall].
    intros [key value] Hv. apply (unrecognized_entry key value Hv).
Qed.

Lemma unsupported_operator_skipped_witness :
  unrecognized_leaf (JObj [("$regex", JStr "a.*")]) = true /\
  fst (buildElasticFilter
         (JObj ([("status", JStr "open")] ++
                ("title", JObj [("$regex", JStr "a.*")]) :: [("count", JObj [("$gt", js_of_Z 1)])])%list)
         fresh) =
  fst (buildElasticFilter
         (JObj ([("status", JStr "open")] ++ [("count", JObj [("$gt", js_of_Z 1)])])%list) fresh).
Proof.
  split; [reflexivity|].
  apply (proj1 (proj2 (unsupported_operator_skipped fresh))
               [("status", JStr "open")] "title" (JObj [("$regex", JStr "a.*")])
               [("count", JObj [("$gt", js_of_Z 1)])]).
  reflexivity.
Defined.

(** C9.  An entry whose value is [null] or [undefined] contributes
    nothing: the outcome, log included, is the one of the filter without
    the entry, so no warning is issued for it; and a filter of such
    entries only compiles to [undefined], leaving the query
    unconstrained. *)
Theorem nullish_entry_skipped {Ext : Type} (w : World Ext) :
  (forall pre key value post,
      is_nullish value = true ->
      buildElasticFilter (JObj (pre ++ (key, value) :: post)%list) w =
      buildElasticFilter (JObj (pre ++ post)%list) w) /\
  (forall entries,
      Forall (fun entry => is_nullish (snd entry) = true) entries ->
      buildElasticFilter (JObj entries) w = (inr JUndefined, w)).
Proof.
  split.
  - intros pre key value post Hv.
    destruct (nullish_entry key value Hv) as [Hc Hw].
    rewrite !buildElasticFilter_object, !flat_map_app. cbn [flat_map].
    rewrite Hc, Hw. reflexivity.
  - intros entries Hall.
    rewrite buildElasticFilter_object.
    rewrite !flat_map_all_nil, add_logs_nil; [reflexivity| |].
    + eapply Forall_impl; [|exact Hall].
      intros [key value] Hv. apply (nullish_entry key value Hv).
    + eapply Forall_impl; [|exact Hall].
      intros [key value] Hv. apply (nullish_entry key value Hv).
Qed.

Lemma nullish_entry_skipped_witness :
  Forall (fun entry => is_nullish (snd entry) = true)
         [("deletedAt", JNull); ("owner", JUndefined)] /\
  buildElasticFilter (JObj [("deletedAt", JNull); ("owner", JUndefined)]) fresh =
  (inr JUndefined, fresh).
Proof.
  assert (H : Forall (fun entry : string * JsValue => is_nullish (snd entry) = true)
                     [("deletedAt", JNull); ("owner", JUndefined)])
    by (repeat constructor).
  split; [exact H|].
  exact (proj2 (nullish_entry_skipped fresh) _ H).
Defined.

(** ** Query *)

Lemma call_run {Ext R : Type} (c : Call) (f : Ext -> (Exn + R) * Ext) (w : World Ext) :
  call c f w =
  (fst (f (external w)),
   {| isServerless := isServerless w;
      deploymentChecked := deploymentChecked w;
      maxCountAccuracy := maxCountAccuracy w;
      external := snd (f (external w));
      trace := (trace w ++ [c])%list;
      logs := logs w |}).
Proof.
  unfold call. destruct (f (external w)); reflexivity.
Qed.

(* ----------------------------------------------------------------- *)
(** *** Doubles that hold integers *)

(** Integers of at most 53 bits are doubles, and on them the product and
    [Math.max] of the candidate count are the integer ones. *)

Local Open Scope Z_scope.





















Local Close Scope Z_scope.




(** C10.  The results of [query] are total.  When the search call answers,
    [query] returns one result per hit, in order, each built by
    [result_of_hit] (and when it fails, [query] throws the wrapped error);
    a result carries the id of its hit; a hit without a score gives score
    [+0]; a hit without metadata gives the empty object; and the vector is
    read from the hit when [includeVector] is true and is [undefined]
    otherwise. *)
Theorem query_results_total {Ext : Type} (ext : External Ext) (params : QueryVectorParams)
        (w : World Ext) :
  let includeVector := match qp_includeVector params with Some b => b | None => false end in
  (exists request,
      trace (snd (query ext params w)) = (trace w ++ [CallSearch request])%list /\
      match fst (client_search ext request (external w)) with
      | inr response =>
          fst (query ext params w) =
          inr (map (result_of_hit includeVector) (hits_hits response))
      | inl error =>
          fst (query ext params w) =
          inl (Error ("Failed to query vectors from " ++ quoted (qp_indexName params) ++ ": " ++
                      error_message error))
      end) /\
  (forall hit, qr_id (result_of_hit includeVector hit) = hit_id hit) /\
  (forall hit,
      hit_score hit = None ->
      qr_score (result_of_hit includeVector hit) = S754_zero false) /\
  (forall hit,
      is_nullish (get_opt (hit_source hit) "metadata") = true ->
      qr_metadata (result_of_hit includeVector hit) = JObj []) /\
  (forall hit,
      qr_vector (result_of_hit includeVector hit) =
      if includeVector then get_opt (hit_source hit) "vector" else JUndefined).
Proof.
  intros includeVector.
  split; [|split; [|split; [|split]]].
  - destruct (buildElasticFilter_total (qp_filter params) w) as (compiled & warnings & Hc).
    unfold query, query_attempt, try_catch, bind. fold includeVector.
    destruct (truthy (qp_filter params)).
    + rewrite Hc. cbv beta iota. unfold ret. cbv beta iota. rewrite call_run.
      match goal with
      | |- context [CallSearch ?r] => exists r
      end.
      cbn [external add_logs].
      destruct (fst (client_search ext _ _)); split; reflexivity.
    + unfold ret. cbv beta iota. rewrite call_run.
      match goal with
      | |- context [CallSearch ?r] => exists r
      end.
      destruct (fst (client_search ext _ _)); split; reflexivity.
  - reflexivity.
  - intros hit Hs. unfold result_of_hit; cbn. rewrite Hs. reflexivity.
  - intros hit Hm. unfold result_of_hit; cbn [qr_metadata].
    unfold js_or. destruct (get_opt (hit_source hit) "metadata"); try discriminate; reflexivity.
  - reflexivity.
Qed.

Lemma query_results_total_witness :
  hit_score {| hit_id := "m1"; hit_score := None; hit_source := JObj [] |} = None /\
  is_nullish
    (get_opt (hit_source {| hit_id := "m1"; hit_score := None; hit_source := JObj [] |})
             "metadata") = true /\
  qr_score
    (result_of_hit false {| hit_id := "m1"; hit_score := None; hit_source := JObj [] |}) =
  S754_zero false /\
  qr_metadata
    (result_of_hit false {| hit_id := "m1"; hit_score := None; hit_source := JObj [] |}) =
  JObj [].
Proof.
  pose proof (query_results_total (scripted down)
                {| qp_indexName := "memory"; qp_queryVector := [];
                   qp_topK := None; qp_filter := JUndefined;
                   qp_includeVector := None |} fresh) as H.
  cbv zeta in H.
  destruct H as (_ & _ & Hscore & Hmeta & _).
  split; [reflexivity|]. split; [reflexivity|].
  split; [apply Hscore; reflexivity | apply Hmeta; reflexivity].
Defined.

(** ** Partial update *)

(** C8.  [updateVector] is a partial update.  With only a vector the one
    call issued is an update whose document has the [vector] key and no
    [metadata] key; with only metadata it has the [metadata] key and no
    [vector] key; and with neither the call returns normally having issued
    no client call at all: the world is the initial one plus one warning
    in the log. *)
Theorem updateVector_partial {Ext : Type} (ext : External Ext) (indexName id : string)
        (w : World Ext) :
  (forall vector,
      trace (snd (updateVector ext
                    {| uv_indexName := indexName; uv_id := id;
                       uv_update := {| update_vector := Some vector;
                                       update_metadata := None |} |} w)) =
      (trace w ++
       [CallUpdate {| ur_index := indexName; ur_id := id;
                      ur_doc := {| ub_vector := Some vector; ub_metadata := None |};
                      ur_refresh := true |}])%list) /\
  (forall props,
      trace (snd (updateVector ext
                    {| uv_indexName := indexName; uv_id := id;
                       uv_update := {| update_vector := None;
                                       update_metadata := Some (JObj props) |} |} w)) =
      (trace w ++
       [CallUpdate {| ur_index := indexName; ur_id := id;
                      ur_doc := {| ub_vector := None; ub_metadata := Some (JObj props) |};
                      ur_refresh := true |}])%list) /\
  updateVector ext
    {| uv_indexName := indexName; uv_id := id;
       uv_update := {| update_vector := None; update_metadata := None |} |} w =
  (inr tt,
   add_logs w [mkLog Warn ("Update called for vector " ++ quoted id ++ " with no changes") []]).
Proof.
  split; [|split].
  - intros vector. unfold updateVector, updateVector_attempt, try_catch, bind.
    cbn [uv_update uv_indexName uv_id update_vector update_metadata body_keys
         ub_vector ub_metadata Nat.add Nat.eqb].
    rewrite call_run.
    destruct (fst (client_update ext _ _)); reflexivity.
  - intros props. unfold updateVector, updateVector_attempt, try_catch, bind.
    cbn [uv_update uv_indexName uv_id update_vector update_metadata body_keys
         ub_vector ub_metadata Nat.add Nat.eqb truthy].
    rewrite call_run.
    destruct (fst (client_update ext _ _)); reflexivity.
  - reflexivity.
Qed.

(** ** Relations every step of the adapter keeps *)

Section Preserves.

Context {Ext : Type}.
Variable R : World Ext -> World Ext -> Prop.
Context {HR : Stable R}.

#[local] Abbreviation preserves := (preserves R).

Lemma preserves_ret {A : Type} (a : A) : preserves (ret a).
Proof. intros w. apply stable_refl. Qed.

Lemma preserves_throw {A : Type} (e : Exn) : preserves (@throw Ext A e).
Proof. intros w. apply stable_refl. Qed.

Lemma preserves_read {A : Type} (field : World Ext -> A) : preserves (read field).
Proof. intros w. apply stable_refl. Qed.

Lemma preserves_bind {A B : Type} (m : M Ext A) (k : A -> M Ext B) :
  preserves m -> (forall a, preserves (k a)) -> preserves (bind m k).
Proof.
  intros Hm Hk w. unfold bind. specialize (Hm w).
  destruct (m w) as [[e | a] w']; cbn [snd] in *; [exact Hm|].
  eapply stable_trans; [exact Hm | apply Hk].
Qed.

Lemma preserves_try_catch {A : Type} (body : M Ext A) (handler : Exn -> M Ext A) :
  preserves body -> (forall e, preserves (handler e)) -> preserves (try_catch body handler).
Proof.
  intros Hb Hh w. unfold try_catch. specialize (Hb w).
  destruct (body w) as [[e | a] w']; cbn [snd] in *; [|exact Hb].
  eapply stable_trans; [exact Hb | apply Hh].
Qed.

Lemma preserves_for_of {A S : Type} (xs : list A) (body : A -> S -> M Ext S) :
  (forall x acc, preserves (body x acc)) -> forall acc, preserves (for_of xs body acc).
Proof.
  intros Hbody. induction xs as [|x xs IH]; intros acc; cbn [for_of].
  - apply preserves_ret.
  - apply preserves_bind; [apply Hbody | exact IH].
Qed.

Lemma preserves_map_M {A B : Type} (f : A -> M Ext B) (xs : list A) :
  (forall x, preserves (f x)) -> preserves (map_M f xs).
Proof.
  intros Hf. induction xs as [|x xs IH]; cbn [map_M].
  - apply preserves_ret.
  - apply preserves_bind; [apply Hf | intros y].
    apply preserves_bind; [exact IH | intros ys; apply preserves_ret].
Qed.

Lemma preserves_log (lvl : Level) (msg : string) (data : list JsValue) :
  preserves (log lvl msg data).
Proof.
  intros w. unfold log; cbn [snd].
  pose proof (stable_quiet w (external w) [] [mkLog lvl msg data] (Forall_nil _)) as H.
  now rewrite app_nil_r in H.
Qed.

Lemma preserves_sample {A : Type} (f : Ext -> A * Ext) : preserves (sample f).
Proof.
  intros w. unfold sample. destruct (f (external w)) as [a e']; cbn [snd].
  pose proof (stable_quiet w e' [] [] (Forall_nil _)) as H.
  now rewrite !app_nil_r in H.
Qed.

Lemma preserves_call {A : Type} (c : Call) (f : Ext -> (Exn + A) * Ext) :
  allowed c -> preserves (call c f).
Proof.
  intros Hc w. unfold call. destruct (f (external w)) as [r e']; cbn [snd].
  pose proof (stable_quiet w e' [c] [] (Forall_cons _ Hc (Forall_nil _))) as H.
  now rewrite app_nil_r in H.
Qed.

End Preserves.


Ltac preserves_step :=
  lazymatch goal with
  | |- preserves ?R (bind _ _) => apply (preserves_bind R); [|intros ?]
  | |- preserves ?R (try_catch _ _) => apply (preserves_try_catch R); [|intros ?]
  | |- preserves ?R (ret _) => apply (preserves_ret R)
  | |- preserves ?R (throw _) => apply (preserves_throw R)
  | |- preserves ?R (read _) => apply (preserves_read R)
  | |- preserves ?R (log _ _ _) => apply (preserves_log R)
  | |- preserves ?R (sample _) => apply (preserves_sample R)
  | |- preserves ?R (call _ _) =>
      apply (preserves_call R); hnf; first [reflexivity | discriminate]
  | |- preserves ?R (for_of _ _ _) => apply (preserves_for_of R); intros ? ?
  | |- preserves ?R (map_M _ _) => apply (preserves_map_M R); intros ?
  | |- preserves _ (match ?x with _ => _ end) => destruct x
  | |- preserves _ (let (_, _) := ?x in _) => destruct x
  | |- preserves _ _ => solve [auto with preserves]
  end.

Ltac preserves_all := repeat preserves_step.

Lemma infos_app (a b : list Call) : infos (a ++ b) = infos a + infos b.
Proof.
  induction a as [|c a IH]; cbn; [reflexivity|].
  destruct c; cbn; rewrite IH; reflexivity.
Qed.

Lemma infos_none (calls : list Call) :
  Forall (fun c => c <> CallInfo) calls -> infos calls = 0.
Proof.
  induction 1 as [|c calls Hc _ IH]; cbn; [reflexivity|].
  destruct c; try exact IH. contradiction.
Qed.

Lemma detection_stable_refl {Ext : Type} (w : World Ext) : detection_stable w w.
Proof. unfold detection_stable. repeat split; auto. Qed.

Lemma detection_stable_trans {Ext : Type} (a b c : World Ext) :
  detection_stable a b -> detection_stable b c -> detection_stable a c.
Proof.
  intros (H1 & H2 & H3 & H4) (H1' & H2' & H3' & H4').
  unfold detection_stable. split; [lia|]. split; [lia|]. split.
  - intros Ha. destruct (H3 Ha) as [Hb Hs]. destruct (H3' Hb) as [Hc Hs'].
    split; [exact Hc | congruence].
  - intros Ha. destruct (H4 Ha) as [Hs Hn].
    assert (Hb : isServerless b <> None) by congruence.
    destruct (H4' Hb) as [Hs' Hn']. split; congruence.
Qed.

Lemma detection_stable_quiet {Ext : Type} (w : World Ext) (e : Ext) (calls : list Call)
      (entries : list LogEntry) :
  Forall (fun c => c <> CallInfo) calls ->
  detection_stable w
    {| isServerless := isServerless w;
       deploymentChecked := deploymentChecked w;
       maxCountAccuracy := maxCountAccuracy w;
       external := e;
       trace := (trace w ++ calls)%list;
       logs := (logs w ++ entries)%list |}.
Proof.
  intros Hcalls. unfold detection_stable; cbn.
  rewrite infos_app, (infos_none calls Hcalls). repeat split; auto; lia.
Qed.

#[export] Instance detection_stable_Stable {Ext : Type} : Stable (@detection_stable Ext) :=
  {| allowed := fun c => c <> CallInfo;
     stable_refl := detection_stable_refl;
     stable_trans := detection_stable_trans;
     stable_quiet := detection_stable_quiet |}.

Lemma no_create_refl {Ext : Type} (w : World Ext) : no_create w w.
Proof. exists []. split; [now rewrite app_nil_r | constructor]. Qed.

Lemma no_create_trans {Ext : Type} (a b c : World Ext) :
  no_create a b -> no_create b c -> no_create a c.
Proof.
  intros (l1 & E1 & F1) (l2 & E2 & F2). exists (l1 ++ l2)%list. split.
  - rewrite E2, E1, app_assoc. reflexivity.
  - apply Forall_app; auto.
Qed.

Lemma no_create_quiet {Ext : Type} (w : World Ext) (e : Ext) (calls : list Call)
      (entries : list LogEntry) :
  Forall (fun c => is_create c = false) calls ->
  no_create w
    {| isServerless := isServerless w;
       deploymentChecked := deploymentChecked w;
       maxCountAccuracy := maxCountAccuracy w;
       external := e;
       trace := (trace w ++ calls)%list;
       logs := (logs w ++ entries)%list |}.
Proof.
  intros Hcalls. exists calls. split; [reflexivity | exact Hcalls].
Qed.

#[export] Instance no_create_Stable {Ext : Type} : Stable (@no_create Ext) :=
  {| allowed := fun c => is_create c = false;
     stable_refl := no_create_refl;
     stable_trans := no_create_trans;
     stable_quiet := no_create_quiet |}.

(** ** Deployment detection *)

(** Every call of [detectServerless] returns, leaves the deployment
    checked, and does nothing at all when it was checked already. *)
Lemma detectServerless_run {Ext : Type} (ext : External Ext) (w : World Ext) :
  exists flavor w',
    detectServerless ext w = (inr flavor, w') /\
    deploymentChecked w' = true /\
    (deploymentChecked w = true -> w' = w).
Proof.
  unfold detectServerless, bind, read, ret, try_catch.
  destruct (deploymentChecked w) eqn:Hc; cbn [fst snd].
  - eexists _, _. split; [reflexivity|]. split; [exact Hc | reflexivity].
  - destruct (isServerless w) as [b|] eqn:Hs.
    + eexists _, _. split; [reflexivity|]. split; [reflexivity | discriminate].
    + rewrite call_run. cbn [fst snd].
      destruct (fst (client_info ext (external w))) as [e | info];
        eexists _, _; (split; [reflexivity|]); (split; [reflexivity | discriminate]).
Qed.

Lemma detectServerless_detection_stable {Ext : Type} (ext : External Ext) :
  preserves detection_stable (detectServerless ext).
Proof.
  intros w. unfold detectServerless, bind, read, ret, try_catch.
  destruct (deploymentChecked w) eqn:Hc; cbn [fst snd].
  - apply detection_stable_refl.
  - destruct (isServerless w) as [b|] eqn:Hs.
    + unfold detection_stable; cbn. rewrite Hc, Hs. repeat split; auto; try lia; discriminate.
    + rewrite call_run. cbn [fst snd].
      destruct (fst (client_info ext (external w))) as [e | info];
        unfold detection_stable; cbn; rewrite Hc, Hs, infos_app; cbn;
        repeat split; try lia; try discriminate; try congruence.
Qed.

Create HintDb preserves.

#[export] Hint Resolve detectServerless_detection_stable : preserves.

Section DetectionStable.

Context {Ext : Type} (ext : External Ext).

Lemma buildElasticFilter_detection_stable (filter : JsValue) :
  preserves detection_stable (@buildElasticFilter Ext filter).
Proof.
  unfold buildElasticFilter, filter_entry, has_key. preserves_all.
Qed.

Lemma describeIndex_detection_stable (indexName : string) :
  preserves detection_stable (describeIndex ext indexName).
Proof.
  unfold describeIndex, describeIndex_attempt, serverless_count, standard_count. preserves_all.
Qed.

Hint Resolve buildElasticFilter_detection_stable describeIndex_detection_stable : preserves.

Lemma createIndex_detection_stable (params : CreateIndexParams) :
  preserves detection_stable (createIndex ext params).
Proof.
  unfold createIndex, createIndex_attempt, validateExistingIndex, mapMetricToSimilarity. preserves_all.
Qed.

Lemma upsert_detection_stable (params : UpsertVectorParams) :
  preserves detection_stable (upsert ext params).
Proof.
  unfold upsert, upsert_attempt, generate_id. preserves_all.
Qed.

Lemma query_detection_stable (params : QueryVectorParams) :
  preserves detection_stable (query ext params).
Proof.
  unfold query, query_attempt. preserves_all.
Qed.

Lemma listIndexes_detection_stable :
  preserves detection_stable (listIndexes ext).
Proof.
  unfold listIndexes, listIndexes_attempt, keep_user_index. preserves_all.
Qed.

Lemma deleteIndex_detection_stable (indexName : string) :
  preserves detection_stable (deleteIndex ext indexName).
Proof.
  unfold deleteIndex, deleteIndex_attempt. preserves_all.
Qed.

Lemma updateVector_detection_stable (params : UpdateVectorParams) :
  preserves detection_stable (updateVector ext params).
Proof.
  unfold updateVector, updateVector_attempt. preserves_all.
Qed.

Lemma deleteVector_detection_stable (indexName id : string) :
  preserves detection_stable (deleteVector ext indexName id).
Proof.
  unfold deleteVector, deleteVector_attempt. preserves_all.
Qed.

End DetectionStable.

Lemma perform_detection_stable {Ext : Type} (ext : External Ext) (op : Operation)
      (w : World Ext) :
  detection_stable w (perform ext op w).
Proof.
  destruct op; cbn [perform].
  - apply createIndex_detection_stable.
  - apply upsert_detection_stable.
  - apply query_detection_stable.
  - apply listIndexes_detection_stable.
  - apply describeIndex_detection_stable.
  - apply deleteIndex_detection_stable.
  - apply updateVector_detection_stable.
  - apply deleteVector_detection_stable.
Qed.

Lemma perform_all_detection_stable {Ext : Type} (ext : External Ext) (ops : list Operation)
      (w : World Ext) :
  detection_stable w (perform_all ext ops w).
Proof.
  revert w. induction ops as [|op ops IH]; intros w; cbn.
  - apply detection_stable_refl.
  - eapply detection_stable_trans; [apply perform_detection_stable | apply IH].
Qed.

(** C5.  Deployment detection runs its introspection at most once per
    instance.  Once the deployment is checked, [detectServerless] returns
    the cached flavor and leaves the world as it is, so it issues no call;
    every call of [detectServerless] returns and leaves the deployment
    checked; a public operation on a checked instance keeps it checked with
    the same flavor and adds no introspection call; whatever operations
    are performed on a new instance, in any number and order, the trace
    holds at most one [client.info()]; with an explicit flavor in the
    configuration the first detection returns that flavor without any
    call, and no sequence of operations ever issues the introspection;
    and when the introspection fails, detection returns the standard
    flavor ([false]) instead of throwing, records it and marks the
    deployment checked. *)
Theorem detection_at_most_once {Ext : Type} (ext : External Ext) :
  (forall w,
      deploymentChecked w = true ->
      detectServerless ext w =
      (inr (match isServerless w with Some b => b | None => false end), w)) /\
  (forall w, exists flavor w',
      detectServerless ext w = (inr flavor, w') /\ deploymentChecked w' = true) /\
  (forall w op,
      deploymentChecked w = true ->
      deploymentChecked (perform ext op w) = true /\
      isServerless (perform ext op w) = isServerless w /\
      infos (trace (perform ext op w)) = infos (trace w)) /\
  (forall config e ops,
      infos (trace (perform_all ext ops (constructor config e))) <= 1) /\
  (forall b accuracy e,
      exists w',
        detectServerless ext (constructor (mkConfig (Some b) accuracy) e) = (inr b, w') /\
        trace w' = [] /\ external w' = e) /\
  (forall b accuracy e ops,
      infos (trace (perform_all ext ops (constructor (mkConfig (Some b) accuracy) e))) = 0) /\
  (forall w error e',
      deploymentChecked w = false ->
      isServerless w = None ->
      client_info ext (external w) = (inl error, e') ->
      exists w',
        detectServerless ext w = (inr false, w') /\
        isServerless w' = Some false /\
        deploymentChecked w' = true).
Proof.
  split; [|split; [|split; [|split; [|split; [|split]]]]].
  - intros w Hc. unfold detectServerless, bind, read, ret. rewrite Hc. reflexivity.
  - intros w. destruct (detectServerless_run ext w) as (flavor & w' & H & Hc & _).
    eauto.
  - intros w op Hc.
    destruct (perform_detection_stable ext op w) as (H1 & H2 & H3 & _).
    destruct (H3 Hc) as [Hc' Hs]. rewrite Hc, Hc' in H2.
    split; [exact Hc'|]. split; [exact Hs | lia].
  - intros config e ops.
    destruct (perform_all_detection_stable ext ops (constructor config e)) as (_ & H2 & _).
    cbn in H2. destruct (deploymentChecked _); lia.
  - intros b accuracy e. eexists. split; [reflexivity|]. split; reflexivity.
  - intros b accuracy e ops.
    destruct (perform_all_detection_stable ext ops (constructor (mkConfig (Some b) accuracy) e))
      as (_ & _ & _ & H4).
    cbn in H4. apply H4. discriminate.
  - intros w error e' Hc Hs Hinfo.
    unfold detectServerless, bind, read, ret, try_catch. rewrite Hc, Hs.
    rewrite call_run, Hinfo. cbn [fst snd].
    eexists. split; [reflexivity|]. split; reflexivity.
Qed.

Lemma detection_at_most_once_witness :
  deploymentChecked fresh = false /\
  isServerless fresh = None /\
  client_info (scripted down) (external fresh) = (inl unreachable, tt) /\
  exists w',
    detectServerless (scripted down) fresh = (inr false, w') /\
    isServerless w' = Some false /\
    deploymentChecked w' = true.
Proof.
  split; [reflexivity|]. split; [reflexivity|]. split; [reflexivity|].
  apply (proj2 (proj2 (proj2 (proj2 (proj2 (proj2 (detection_at_most_once (scripted down)))))))
               fresh unreachable tt); reflexivity.
Defined.

(** ** Index creation *)

Lemma set_isServerless_no_create {Ext : Type} (v : option bool) :
  preserves no_create (@set_isServerless Ext v).
Proof. intros w. exists []. split; [cbn; now rewrite app_nil_r | constructor]. Qed.

Lemma set_deploymentChecked_no_create {Ext : Type} (v : bool) :
  preserves no_create (@set_deploymentChecked Ext v).
Proof. intros w. exists []. split; [cbn; now rewrite app_nil_r | constructor]. Qed.

#[export] Hint Resolve set_isServerless_no_create set_deploymentChecked_no_create : preserves.

Lemma detectServerless_no_create {Ext : Type} (ext : External Ext) :
  preserves no_create (detectServerless ext).
Proof.
  unfold detectServerless. preserves_all.
Qed.

#[export] Hint Resolve detectServerless_no_create : preserves.

Lemma describeIndex_no_create {Ext : Type} (ext : External Ext) (indexName : string) :
  preserves no_create (describeIndex ext indexName).
Proof.
  unfold describeIndex, describeIndex_attempt, serverless_count, standard_count. preserves_all.
Qed.

#[export] Hint Resolve describeIndex_no_create : preserves.

Lemma validateExistingIndex_no_create {Ext : Type} (ext : External Ext) (indexName : string)
      (dimension : Z) (metric : string) :
  preserves no_create (validateExistingIndex ext indexName dimension metric).
Proof.
  unfold validateExistingIndex. preserves_all.
Qed.

Lemma no_create_same_trace {Ext : Type} (a b c : World Ext) :
  no_create a b -> trace c = trace b -> no_create a c.
Proof.
  intros (calls & E & F) Hc. exists calls. split; [congruence | exact F].
Qed.

(** C2.  [createIndex] on an index that exists.  When the existence check
    answers true, no index-create call is issued, whatever the validation
    finds.  When moreover the existing index is described with a dimension
    or a metric different from the requested one, [createIndex] throws an
    error whose message names the index; and when both agree it returns
    without creating anything. *)
Theorem createIndex_existing_index {Ext : Type} (ext : External Ext)
        (indexName : string) (dimension : Z) (requested : option string) (w : World Ext)
        (e1 : Ext) :
  let params :=
    {| ci_indexName := indexName; ci_dimension := dimension; ci_metric := requested |} in
  let metric := match requested with Some m => m | None => "cosine" end in
  let w1 :=
    {| isServerless := isServerless w;
       deploymentChecked := deploymentChecked w;
       maxCountAccuracy := maxCountAccuracy w;
       external := e1;
       trace := (trace w ++ [CallIndicesExists indexName])%list;
       logs := logs w |} in
  client_indices_exists ext indexName (external w) = (inr true, e1) ->
  no_create w (snd (createIndex ext params w)) /\
  (forall existing w2,
      describeIndex ext indexName w1 = (inr existing, w2) ->
      (stats_dimension existing <> dimension \/ stats_metric existing <> metric ->
       exists detail,
         fst (createIndex ext params w) =
         inl (Error ("Failed to create index " ++ quoted indexName ++ ": " ++
                     "Index " ++ quoted indexName ++
                     " exists but does not match the required configuration: " ++ detail))) /\
      (stats_dimension existing = dimension /\ stats_metric existing = metric ->
       fst (createIndex ext params w) = inr tt)).
Proof.
  intros params metric w1 Hexists.
  assert (Hw1 : call (CallIndicesExists indexName) (client_indices_exists ext indexName) w =
                (inr true, w1)).
  { rewrite call_run, Hexists. reflexivity. }
  split.
  - pose proof (validateExistingIndex_no_create ext indexName dimension metric w1) as Hv.
    unfold createIndex, createIndex_attempt, try_catch, bind at 1.
    cbn [ci_indexName ci_dimension ci_metric params]. fold metric.
    rewrite Hw1.
    unfold bind at 1.
    destruct (validateExistingIndex ext indexName dimension metric w1) as [[e | []] w2];
      cbn [snd fst] in *.
    + unfold throw, log, bind. cbn [snd].
      eapply no_create_same_trace; [|reflexivity].
      eapply no_create_trans; [|exact Hv].
      exists [CallIndicesExists indexName]. split; [reflexivity | repeat constructor].
    + unfold log, ret, bind. cbn [snd].
      eapply no_create_same_trace; [|reflexivity].
      eapply no_create_trans; [|exact Hv].
      exists [CallIndicesExists indexName]. split; [reflexivity | repeat constructor].
  - intros existing w2 Hdescribe. split.
    + intros Hmismatch.
      unfold createIndex, createIndex_attempt, try_catch, bind at 1.
      cbn [ci_indexName ci_dimension ci_metric params]. fold metric.
      rewrite Hw1. unfold validateExistingIndex, bind. rewrite Hdescribe.
      destruct (Z.eqb_spec (stats_dimension existing) dimension) as [Hd | Hd]; cbn [negb].
      * destruct (String.eqb_spec (stats_metric existing) metric) as [Hm | Hm]; cbn [negb].
        -- destruct Hmismatch; contradiction.
        -- eexists. unfold throw, log. cbn [fst]. reflexivity.
      * eexists. unfold throw, log. cbn [fst]. reflexivity.
    + intros [Hd Hm].
      unfold createIndex, createIndex_attempt, try_catch, bind at 1.
      cbn [ci_indexName ci_dimension ci_metric params]. fold metric.
      rewrite Hw1. unfold validateExistingIndex, bind. rewrite Hdescribe.
      rewrite Hd, Hm, Z.eqb_refl, String.eqb_refl. reflexivity.
Qed.

Lemma createIndex_existing_index_witness :
  client_indices_exists (scripted with_memory_index) "memory" (external fresh) =
  (inr true, tt) /\
  (exists w2,
      describeIndex (scripted with_memory_index) "memory"
        {| isServerless := None; deploymentChecked := false; maxCountAccuracy := 10000;
           external := tt; trace := [CallIndicesExists "memory"]; logs := [] |} =
      (inr {| stats_dimension := 1536; stats_metric := "cosine"; stats_count := 3 |}, w2)) /\
  (1536 <> 768)%Z /\
  no_create fresh
    (snd (createIndex (scripted with_memory_index)
            {| ci_indexName := "memory"; ci_dimension := 768; ci_metric := None |} fresh)) /\
  exists detail,
    fst (createIndex (scripted with_memory_index)
           {| ci_indexName := "memory"; ci_dimension := 768; ci_metric := None |} fresh) =
    inl (Error ("Failed to create index " ++ quoted "memory" ++ ": " ++
                "Index " ++ quoted "memory" ++
                " exists but does not match the required configuration: " ++ detail)).
Proof.
  pose proof (createIndex_existing_index (scripted with_memory_index)
                "memory" 768 None fresh tt) as H.
  cbv zeta in H. specialize (H eq_refl). destruct H as [Hnone Hrest].
  split; [reflexivity|].
  split; [eexists; vm_compute; reflexivity|].
  split; [discriminate|].
  split; [exact Hnone|].
  refine (proj1 (Hrest {| stats_dimension := 1536; stats_metric := "cosine"; stats_count := 3 |}
                       _ _) _).
  - vm_compute. reflexivity.
  - left. cbn. discriminate.
Defined.

(** ** Upsert *)

(** C1.  Two batches on which [upsert] misreports a partial failure,
    because it recognises the failed records by id.  In a batch of two
    records sent under the same id, of which the first fails and the second
    is written, [upsert] throws "All operations failed".  In a batch of
    three, of which only the first fails and the second shares its id,
    [upsert] returns one id where two records were written. *)
Theorem upsert_duplicate_ids :
  fst (upsert (scripted (answering_bulk [bulk_item "a" true; bulk_item "a" false]))
         (batch [("a", too_short); ("a", well_formed)]) fresh) =
  inl (Error ("Failed to upsert vectors to " ++ quoted "memory" ++ ": " ++
              "Failed to upsert 1/2 vectors. All operations failed. See logs for details.")) /\
  fst (upsert (scripted (answering_bulk
                           [bulk_item "a" true; bulk_item "a" false; bulk_item "b" false]))
         (batch [("a", too_short); ("a", well_formed); ("b", well_formed)]) fresh) =
  inr ["b"].
Proof.
  split; vm_compute; reflexivity.
Qed.

(** *** Batches with pairwise distinct ids *)

Lemma includes_id_app (a b : list (option string)) (id : string) :
  includes_id (a ++ b) id = includes_id a id || includes_id b id.
Proof. unfold includes_id. apply existsb_app. Qed.

Lemma includes_id_In (ids : list (option string)) (id : string) :
  includes_id ids id = true <-> In (Some id) ids.
Proof.
  unfold includes_id. rewrite existsb_exists. split.
  - intros ([s|] & Hin & Hs); [|discriminate].
    apply String.eqb_eq in Hs. now subst.
  - intros Hin. exists (Some id). split; [exact Hin | apply String.eqb_refl].
Qed.

(** The ids reported as failed among records sent under the ids [ids]. *)
Lemma errored_ids_sent (ids : list string) (items : list BulkItem) :
  map index_id items = map Some ids ->
  forall id, In (Some id) (map index_id (filter failed items)) -> In id ids.
Proof.
  revert ids. induction items as [|item items IH]; intros ids Hids id Hin.
  - contradiction.
  - destruct ids as [|i ids]; [discriminate|].
    cbn in Hids. injection Hids as Hi Hrest.
    cbn [filter] in Hin. destruct (failed item).
    + cbn in Hin. destruct Hin as [E | Hin].
      * left. congruence.
      * right. eapply IH; eauto.
    + right. eapply IH; eauto.
Qed.

(** With pairwise distinct ids, filtering by id is filtering by position. *)
Lemma successful_ids_by_position (ids : list string) (items : list BulkItem)
      (earlier : list (option string)) :
  NoDup ids ->
  map index_id items = map Some ids ->
  (forall id, In id ids -> includes_id earlier id = false) ->
  filter (fun id => negb (includes_id (earlier ++ map index_id (filter failed items)) id)) ids =
  map fst (filter (fun p => negb (failed (snd p))) (combine ids items)).
Proof.
  revert items earlier.
  induction ids as [|id ids IH]; intros items earlier Hnd Hids Hearlier.
  - reflexivity.
  - destruct items as [|item items]; [discriminate|].
    cbn in Hids. injection Hids as Hid Hrest.
    inversion Hnd as [|? ? Hnotin Hnd']; subst.
    cbn [filter combine snd].
    destruct (failed item) eqn:Hf; cbn [negb map fst].
    + rewrite includes_id_app. cbn [map includes_id existsb].
      rewrite Hid, String.eqb_refl. cbn [orb]. rewrite orb_true_r. cbn [negb].
      replace (earlier ++ Some id :: map index_id (filter failed items))%list
        with ((earlier ++ [Some id]) ++ map index_id (filter failed items))%list
        by (now rewrite <- app_assoc).
      apply IH; auto.
      intros id' Hin'. rewrite includes_id_app, Hearlier by (now right).
      cbn. rewrite orb_false_r.
      apply String.eqb_neq. intros ->. contradiction.
    + rewrite includes_id_app, Hearlier by (now left). cbn [orb].
      destruct (includes_id (map index_id (filter failed items)) id) eqn:Hinc.
      * apply includes_id_In in Hinc.
        apply (errored_ids_sent ids items Hrest) in Hinc. contradiction.
      * cbn [negb map fst]. f_equal. apply IH; auto.
        intros id' Hin'. apply Hearlier. now right.
Qed.

Lemma succeeded_length (ids : list string) (items : list BulkItem) :
  length ids = length items ->
  length (map fst (filter (fun p => negb (failed (snd p))) (combine ids items))) =
  length ids - length (filter failed items) /\
  length (filter failed items) <= length ids.
Proof.
  revert items. induction ids as [|id ids IH]; intros items Hlen.
  - destruct items; [cbn; lia | discriminate].
  - destruct items as [|item items]; [discriminate|].
    cbn in Hlen. injection Hlen as Hlen.
    destruct (IH items Hlen) as [IH1 IH2].
    cbn [combine filter snd]. destruct (failed item); cbn [negb map length] in *; lia.
Qed.

Lemma none_failed (ids : list string) (items : list BulkItem) :
  length ids = length items ->
  existsb failed items = false ->
  filter failed items = [] /\
  map fst (filter (fun p => negb (failed (snd p))) (combine ids items)) = ids.
Proof.
  revert items. induction ids as [|id ids IH]; intros items Hlen Hnone.
  - destruct items; [split; reflexivity | discriminate].
  - destruct items as [|item items]; [discriminate|].
    cbn in Hlen. injection Hlen as Hlen.
    cbn in Hnone. apply orb_false_iff in Hnone. destruct Hnone as [Hf Hnone].
    destruct (IH items Hlen Hnone) as [IH1 IH2].
    cbn [combine filter snd]. rewrite Hf. cbn [negb map fst]. split; [exact IH1 | now f_equal].
Qed.

(** X19.  On a batch whose ids are pairwise distinct, one per vector, and a
    response that reports each record under the id it was sent with, a
    partial failure is reported exactly: with N records of which M failed,
    [upsert] returns the N - M ids of the records that were written, in
    the order of the batch, when M < N, and throws when all of a non-empty
    batch failed. *)
Lemma upsert_distinct_ids {Ext : Type} (ext : External Ext) (indexName : string)
      (vectors : list (list number)) (metadata : option (list JsValue)) (ids : list string)
      (w : World Ext) (response : BulkResponse) :
  let params :=
    {| up_indexName := indexName; up_vectors := vectors;
       up_metadata := metadata; up_ids := Some ids |} in
  let items := bulk_items response in
  let succeeded :=
    map fst (filter (fun p => negb (failed (snd p))) (combine ids items)) in
  NoDup ids ->
  length ids = length vectors ->
  (forall request, fst (client_bulk ext request (external w)) = inr response) ->
  map index_id items = map Some ids ->
  bulk_errors response = existsb failed items ->
  length succeeded = length vectors - length (filter failed items) /\
  (length (filter failed items) < length vectors ->
   fst (upsert ext params w) = inr succeeded) /\
  (length (filter failed items) = length vectors ->
   0 < length vectors ->
   exists message, fst (upsert ext params w) = inl (Error message)) /\
  (length vectors = 0 -> fst (upsert ext params w) = inr []).
Proof.
  intros params items succeeded Hnd Hlen Hbulk Hids Herrors.
  assert (Hitems : length ids = length items).
  { rewrite <- (length_map Some ids), <- Hids, length_map. reflexivity. }
  destruct (succeeded_length ids items Hitems) as [Hsucc Hle].
  fold succeeded in Hsucc.
  assert (Hrun :
    fst (upsert ext params w) =
    if bulk_errors response
    then if (length succeeded =? 0)%nat
         then inl (Error
                ("Failed to upsert vectors to " ++ quoted indexName ++ ": " ++
                 ("Failed to upsert " ++ nat_to_string (length (filter failed items)) ++ "/" ++
                  nat_to_string (length vectors) ++ " vectors") ++
                 ". All operations failed. See logs for details."))
         else inr succeeded
    else inr ids).
  { unfold upsert, upsert_attempt, try_catch, bind, ret.
    cbn [up_ids up_vectors up_metadata up_indexName params].
    rewrite call_run. cbn [fst snd]. rewrite Hbulk.
    destruct (bulk_errors response); [|reflexivity].
    unfold log. cbn [fst snd].
    change (fun item : BulkItem => truthy (index_error item)) with failed.
    fold items.
    pose proof (successful_ids_by_position ids items [] Hnd Hids (fun _ _ => eq_refl)) as Hpos.
    cbn [app] in Hpos. rewrite Hpos. fold succeeded.
    rewrite length_map.
    destruct (length succeeded =? 0)%nat; reflexivity. }
  split; [lia|]. split; [|split].
  - intros Hlt. rewrite Hrun.
    destruct (bulk_errors response) eqn:He.
    + destruct (Nat.eqb_spec (length succeeded) 0); [lia | reflexivity].
    + destruct (none_failed ids items Hitems (eq_sym Herrors)) as [_ Hall].
      unfold succeeded. now rewrite Hall.
  - intros Hall Hpos. rewrite Hrun.
    destruct (bulk_errors response) eqn:He.
    + destruct (Nat.eqb_spec (length succeeded) 0); [eauto | lia].
    + destruct (none_failed ids items Hitems (eq_sym Herrors)) as [Hnone _].
      rewrite Hnone in Hall. cbn in Hall. lia.
  - intros Hzero. rewrite Hrun.
    assert (ids = []) by (destruct ids; [reflexivity | cbn in Hlen; lia]). subst ids.
    destruct items; [|discriminate].
    rewrite Herrors. reflexivity.
Qed.

(* ================================================================= *)
(** * Further properties of the adapter *)

(** ** Which calls an operation issues *)

Lemma issues_refl {Ext : Type} (p : Call -> bool) (w : World Ext) : issues p w w.
Proof. exists []. split; [now rewrite app_nil_r | constructor]. Qed.

Lemma issues_trans {Ext : Type} (p : Call -> bool) (a b c : World Ext) :
  issues p a b -> issues p b c -> issues p a c.
Proof.
  intros (l1 & E1 & F1) (l2 & E2 & F2). exists (l1 ++ l2)%list. split.
  - rewrite E2, E1, app_assoc. reflexivity.
  - apply Forall_app; auto.
Qed.

Lemma issues_quiet {Ext : Type} (p : Call -> bool) (w : World Ext) (e : Ext)
      (calls : list Call) (entries : list LogEntry) :
  Forall (fun c => p c = true) calls ->
  issues p w
    {| isServerless := isServerless w;
       deploymentChecked := deploymentChecked w;
       maxCountAccuracy := maxCountAccuracy w;
       external := e;
       trace := (trace w ++ calls)%list;
       logs := (logs w ++ entries)%list |}.
Proof.
  intros Hcalls. exists calls. split; [reflexivity | exact Hcalls].
Qed.

#[export] Instance issues_Stable {Ext : Type} (p : Call -> bool) : Stable (@issues Ext p) :=
  {| allowed := fun c => p c = true;
     stable_refl := issues_refl p;
     stable_trans := issues_trans p;
     stable_quiet := issues_quiet p |}.

Lemma set_isServerless_issues {Ext : Type} (p : Call -> bool) (v : option bool) :
  preserves (issues p) (@set_isServerless Ext v).
Proof. intros w. exists []. split; [cbn; now rewrite app_nil_r | constructor]. Qed.

Lemma set_deploymentChecked_issues {Ext : Type} (p : Call -> bool) (v : bool) :
  preserves (issues p) (@set_deploymentChecked Ext v).
Proof. intros w. exists []. split; [cbn; now rewrite app_nil_r | constructor]. Qed.

#[export] Hint Resolve set_isServerless_issues set_deploymentChecked_issues : preserves.

Lemma buildElasticFilter_issues {Ext : Type} (p : Call -> bool) (filter : JsValue) :
  preserves (issues p) (@buildElasticFilter Ext filter).
Proof.
  unfold buildElasticFilter, filter_entry, has_key. preserves_all.
Qed.

#[export] Hint Resolve buildElasticFilter_issues : preserves.

Lemma detection_untouched_refl {Ext : Type} (w : World Ext) : detection_untouched w w.
Proof. unfold detection_untouched. repeat split; auto. apply issues_refl. Qed.

Lemma detection_untouched_trans {Ext : Type} (a b c : World Ext) :
  detection_untouched a b -> detection_untouched b c -> detection_untouched a c.
Proof.
  intros (H1 & H2 & H3 & H4) (H1' & H2' & H3' & H4').
  unfold detection_untouched. repeat split; try congruence.
  eapply issues_trans; eauto.
Qed.

Lemma detection_untouched_quiet {Ext : Type} (w : World Ext) (e : Ext) (calls : list Call)
      (entries : list LogEntry) :
  Forall (fun c => negb (is_info c) = true) calls ->
  detection_untouched w
    {| isServerless := isServerless w;
       deploymentChecked := deploymentChecked w;
       maxCountAccuracy := maxCountAccuracy w;
       external := e;
       trace := (trace w ++ calls)%list;
       logs := (logs w ++ entries)%list |}.
Proof.
  intros Hcalls. unfold detection_untouched; cbn. repeat split; auto.
  exists calls. split; [reflexivity | exact Hcalls].
Qed.

#[export] Instance detection_untouched_Stable {Ext : Type} :
  Stable (@detection_untouched Ext) :=
  {| allowed := fun c => negb (is_info c) = true;
     stable_refl := detection_untouched_refl;
     stable_trans := detection_untouched_trans;
     stable_quiet := detection_untouched_quiet |}.

Lemma buildElasticFilter_detection_untouched {Ext : Type} (filter : JsValue) :
  preserves detection_untouched (@buildElasticFilter Ext filter).
Proof.
  unfold buildElasticFilter, filter_entry, has_key. preserves_all.
Qed.

#[export] Hint Resolve buildElasticFilter_detection_untouched : preserves.

(** X5.  The operations that do not need the deployment flavor ([upsert],
    [query], [listIndexes], [deleteIndex], [updateVector], [deleteVector])
    never run the detection: they leave [isServerless],
    [deploymentChecked] and [maxCountAccuracy] as they are and issue no
    [client.info()], also on an instance whose deployment is unchecked. *)
Theorem flavor_free_operations {Ext : Type} (ext : External Ext) (op : Operation)
        (w : World Ext) :
  needs_flavor op = false ->
  isServerless (perform ext op w) = isServerless w /\
  deploymentChecked (perform ext op w) = deploymentChecked w /\
  maxCountAccuracy (perform ext op w) = maxCountAccuracy w /\
  exists calls,
    trace (perform ext op w) = (trace w ++ calls)%list /\
    Forall (fun c => c <> CallInfo) calls.
Proof.
  intros Hop.
  assert (H : detection_untouched w (perform ext op w)).
  { destruct op; try discriminate; cbn [perform].
    - unfold upsert, upsert_attempt, generate_id.
      match goal with |- detection_untouched w (snd (?m w)) =>
        revert w; change (preserves detection_untouched m) end.
      preserves_all.
    - match goal with |- detection_untouched w (snd (?m w)) =>
        revert w; change (preserves detection_untouched m) end.
      unfold query, query_attempt. preserves_all.
    - match goal with |- detection_untouched w (snd (?m w)) =>
        revert w; change (preserves detection_untouched m) end.
      unfold listIndexes, listIndexes_attempt, keep_user_index. preserves_all.
    - match goal with |- detection_untouched w (snd (?m w)) =>
        revert w; change (preserves detection_untouched m) end.
      unfold deleteIndex, deleteIndex_attempt. preserves_all.
    - match goal with |- detection_untouched w (snd (?m w)) =>
        revert w; change (preserves detection_untouched m) end.
      unfold updateVector, updateVector_attempt. preserves_all.
    - match goal with |- detection_untouched w (snd (?m w)) =>
        revert w; change (preserves detection_untouched m) end.
      unfold deleteVector, deleteVector_attempt. preserves_all. }
  destruct H as (H1 & H2 & H3 & calls & E & F).
  repeat split; auto. exists calls. split; [exact E|].
  eapply Forall_impl; [|exact F]. intros c Hc ->. discriminate.
Qed.

Ltac calls_step :=
  lazymatch goal with
  | |- preserves ?R (call _ _) =>
      apply (preserves_call R); hnf; cbn; rewrite ?String.eqb_refl; reflexivity
  | |- _ => preserves_step
  end.

Ltac calls_all := repeat calls_step.

Ltac as_preserves :=
  match goal with
  | |- ?R ?w (snd (?m ?w)) => revert w; change (preserves R m)
  end.

Lemma detectServerless_issues {Ext : Type} (ext : External Ext) (p : Call -> bool) :
  p CallInfo = true -> preserves (issues p) (detectServerless ext).
Proof.
  intros Hp. unfold detectServerless.
  repeat lazymatch goal with
         | |- preserves ?R (call CallInfo _) => apply (preserves_call R); exact Hp
         | |- _ => preserves_step
         end.
Qed.

Lemma describeIndex_issues {Ext : Type} (ext : External Ext) (p : Call -> bool)
      (indexName : string) :
  p CallInfo = true ->
  p (CallIndicesGetMapping indexName) = true ->
  p (CallCount indexName) = true ->
  p (CallIndicesStats indexName) = true ->
  (forall accuracy,
      p (CallSearch {| sr_index := indexName; sr_knn := None; sr_size := num_of_Z 0;
                       sr_source := None; sr_track_total_hits := Some accuracy |}) = true) ->
  preserves (issues p) (describeIndex ext indexName).
Proof.
  intros Hinfo Hmap Hcount Hstats Hsearch.
  pose proof (detectServerless_issues ext p Hinfo) as Hdetect.
  unfold describeIndex, describeIndex_attempt, serverless_count, standard_count.
  repeat lazymatch goal with
         | |- preserves ?R (call _ _) => apply (preserves_call R); hnf; auto
         | |- preserves _ (detectServerless _) => exact Hdetect
         | |- _ => preserves_step
         end.
Qed.

Lemma bulk_lines_target (indexName : string) (ids : list string) (metadata : list JsValue)
      (rows : list (nat * list number)) :
  forallb
    (fun line =>
       match line with
       | ActionIndex index _ => String.eqb index indexName
       | Document _ _ => true
       end)
    (flat_map
       (fun '(index, vec) =>
          [ActionIndex indexName (nth_error ids index);
           Document vec (js_or (nth index metadata JUndefined) empty_object)])
       rows) = true.
Proof.
  induction rows as [|[index vec] rows IH]; cbn [flat_map app forallb]; [reflexivity|].
  now rewrite String.eqb_refl, IH.
Qed.

(** X2.  Every document write asks for immediate visibility: whatever an
    operation other than [createIndex] does, each bulk, update and
    delete-document call it issues carries [refresh: true]. *)
Theorem writes_are_refreshed {Ext : Type} (ext : External Ext) (op : Operation)
        (w : World Ext) :
  validates_existing op = false ->
  exists calls,
    trace (perform ext op w) = (trace w ++ calls)%list /\
    Forall (fun c => refreshes c = true) calls.
Proof.
  intros Hop. change (issues refreshes w (perform ext op w)).
  destruct op; try discriminate; cbn [perform]; as_preserves.
  - unfold upsert, upsert_attempt, generate_id. calls_all.
  - unfold query, query_attempt. calls_all.
  - unfold listIndexes, listIndexes_attempt, keep_user_index. calls_all.
  - apply describeIndex_issues; reflexivity.
  - unfold deleteIndex, deleteIndex_attempt. calls_all.
  - unfold updateVector, updateVector_attempt. calls_all.
  - unfold deleteVector, deleteVector_attempt. calls_all.
Qed.

(** X3.  The reading operations never write: [query], [listIndexes] and
    [describeIndex] issue no index-create, index-delete, bulk, update or
    delete-document call, whatever the cluster answers. *)
Theorem read_operations_never_write {Ext : Type} (ext : External Ext) (op : Operation)
        (w : World Ext) :
  reads_only op = true ->
  exists calls,
    trace (perform ext op w) = (trace w ++ calls)%list /\
    Forall (fun c => is_write c = false) calls.
Proof.
  intros Hop.
  assert (H : issues (fun c => negb (is_write c)) w (perform ext op w)).
  { destruct op; try discriminate; cbn [perform]; as_preserves.
    - unfold query, query_attempt. calls_all.
    - unfold listIndexes, listIndexes_attempt, keep_user_index. calls_all.
    - apply describeIndex_issues; reflexivity. }
  destruct H as (calls & E & F). exists calls. split; [exact E|].
  eapply Forall_impl; [|exact F]. intros c Hc. now apply negb_true_iff in Hc.
Qed.

(** X4.  An operation on an index touches no other index: every call
    issued by [upsert], [query], [describeIndex], [deleteIndex],
    [updateVector] or [deleteVector] names the index of the operation (or
    is the cluster introspection); in a bulk request every action line
    names it. *)
Theorem operations_stay_on_their_index {Ext : Type} (ext : External Ext) (op : Operation)
        (indexName : string) (w : World Ext) :
  validates_existing op = false ->
  index_of op = Some indexName ->
  exists calls,
    trace (perform ext op w) = (trace w ++ calls)%list /\
    Forall (fun c => targets indexName c = true) calls.
Proof.
  intros Hsrc Hop. change (issues (targets indexName) w (perform ext op w)).
  destruct op; cbn [index_of] in Hop; try discriminate; injection Hop as <-;
    cbn [perform]; as_preserves.
  - unfold upsert, upsert_attempt, generate_id.
    repeat lazymatch goal with
           | |- preserves ?R (call (CallBulk _) _) =>
               apply (preserves_call R); hnf; cbn [targets bulk_operations];
               apply bulk_lines_target
           | |- _ => calls_step
           end.
  - unfold query, query_attempt. calls_all.
  - apply describeIndex_issues; intros; cbn; rewrite ?String.eqb_refl; reflexivity.
  - unfold deleteIndex, deleteIndex_attempt. calls_all.
  - unfold updateVector, updateVector_attempt. calls_all.
  - unfold deleteVector, deleteVector_attempt. calls_all.
Qed.

(** ** Errors *)

Lemma append_assoc (a b c : string) : (a ++ b) ++ c = a ++ b ++ c.
Proof. induction a as [|ch a IH]; cbn; [reflexivity | now rewrite IH]. Qed.

(** The shape of every [catch] block of the public operations. *)
Lemma try_catch_rethrow {Ext A : Type} (body : M Ext A) (wrap : string -> string)
      (w : World Ext) (e : Exn) :
  fst (try_catch body
         (fun error =>
            bind (log Err (wrap (error_message error)) [])
                 (fun _ => throw (Error (wrap (error_message error))))) w) = inl e ->
  exists cause, fst (body w) = inl cause /\ e = Error (wrap (error_message cause)).
Proof.
  unfold try_catch. destruct (body w) as [[cause | a] w']; cbn; intros H.
  - exists cause. split; [reflexivity | congruence].
  - discriminate.
Qed.

(** X1.  Every failure of a public operation is rethrown wrapped, and
    nothing else is thrown.  An operation throws exactly when its [try]
    block does; what it throws is then an [Error] whose message is the
    words of the operation ("Failed to", what was attempted, the quoted
    index name and a colon; "Failed to list indexes: " for [listIndexes])
    followed by the message of what the block threw; the same message is
    logged at error level just before; and when the block returns, the
    operation leaves the world the block left. *)
Theorem errors_are_wrapped {Ext : Type} (ext : External Ext) (op : Operation)
        (w : World Ext) :
  match attempted ext op w with
  | (Some cause, w') =>
      let message := failure_prefix op ++ error_message cause in
      thrown_by ext op w = Some (Error message) /\
      perform ext op w = add_logs w' [mkLog Err message []]
  | (None, w') =>
      thrown_by ext op w = None /\
      perform ext op w = w'
  end.
Proof.
  destruct op; cbn [attempted thrown_by perform failure_prefix].
  - unfold createIndex, try_catch.
    destruct (createIndex_attempt ext params w) as [[cause | a] w']; cbn [fst snd];
      [|split; reflexivity].
    split; repeat (cbn [append]; rewrite ?append_assoc); reflexivity.
  - unfold upsert, try_catch.
    destruct (upsert_attempt ext params w) as [[cause | a] w']; cbn [fst snd];
      [|split; reflexivity].
    split; repeat (cbn [append]; rewrite ?append_assoc); reflexivity.
  - unfold query, try_catch.
    destruct (query_attempt ext params w) as [[cause | a] w']; cbn [fst snd];
      [|split; reflexivity].
    split; repeat (cbn [append]; rewrite ?append_assoc); reflexivity.
  - unfold listIndexes, try_catch.
    destruct (listIndexes_attempt ext w) as [[cause | a] w']; cbn [fst snd];
      split; reflexivity.
  - unfold describeIndex, try_catch.
    destruct (describeIndex_attempt ext indexName w) as [[cause | a] w']; cbn [fst snd];
      [|split; reflexivity].
    split; repeat (cbn [append]; rewrite ?append_assoc); reflexivity.
  - unfold deleteIndex, try_catch.
    destruct (deleteIndex_attempt ext indexName w) as [[cause | a] w']; cbn [fst snd];
      [|split; reflexivity].
    split; repeat (cbn [append]; rewrite ?append_assoc); reflexivity.
  - unfold updateVector, try_catch.
    destruct (updateVector_attempt ext params w) as [[cause | a] w']; cbn [fst snd];
      [|split; reflexivity].
    split; repeat (cbn [append]; rewrite ?append_assoc); reflexivity.
  - unfold deleteVector, try_catch.
    destruct (deleteVector_attempt ext indexName id w) as [[cause | a] w']; cbn [fst snd];
      [|split; reflexivity].
    split; repeat (cbn [append]; rewrite ?append_assoc); reflexivity.
Qed.

(** ** Listing *)

Lemma keep_user_index_run {Ext : Type} (names kept : list string) (w : World Ext) :
  for_of (map Some names) keep_user_index kept w =
  (inr (kept ++ filter (fun n => negb (startsWith "." n)) names)%list, w).
Proof.
  revert kept. induction names as [|n names IH]; intros kept; cbn [map for_of filter].
  - unfold ret. now rewrite app_nil_r.
  - unfold bind, keep_user_index, ret. destruct (startsWith "." n); cbn [negb].
    + apply IH.
    + rewrite IH, <- app_assoc. reflexivity.
Qed.

Lemma keep_user_index_missing {Ext : Type} (response : list (option string))
      (kept : list string) (w : World Ext) :
  In None response ->
  for_of response keep_user_index kept w =
  (inl (Error "Cannot read properties of undefined (reading 'startsWith')"), w).
Proof.
  revert kept. induction response as [|[n|] response IH]; intros kept Hin; cbn [for_of].
  - contradiction.
  - destruct Hin as [|Hin]; [discriminate|].
    unfold bind, keep_user_index, ret. cbv beta iota. apply IH, Hin.
  - reflexivity.
Qed.

(** X7.  [listIndexes] returns the names of the catalog that do not start
    with a dot, in the order of the catalog; a catalog row without a name
    makes it throw (wrapped) instead of being skipped; and no name it
    returns starts with a dot. *)
Theorem listIndexes_user_indices {Ext : Type} (ext : External Ext) (w : World Ext) :
  (forall names e',
      client_cat_indices ext (external w) = (inr (map Some names), e') ->
      fst (listIndexes ext w) = inr (filter (fun n => negb (startsWith "." n)) names)) /\
  (forall response e',
      client_cat_indices ext (external w) = (inr response, e') ->
      In None response ->
      fst (listIndexes ext w) =
      inl (Error ("Failed to list indexes: " ++
                  "Cannot read properties of undefined (reading 'startsWith')"))) /\
  (forall names, fst (listIndexes ext w) = inr names ->
                 Forall (fun n => startsWith "." n = false) names).
Proof.
  assert (Hrun : forall response e',
             client_cat_indices ext (external w) = (inr response, e') ->
             call CallCatIndices (client_cat_indices ext) w =
             (inr response,
              {| isServerless := isServerless w;
                 deploymentChecked := deploymentChecked w;
                 maxCountAccuracy := maxCountAccuracy w;
                 external := e';
                 trace := (trace w ++ [CallCatIndices])%list;
                 logs := logs w |})).
  { intros response e' H. rewrite call_run, H. reflexivity. }
  split; [|split].
  - intros names e' H. unfold listIndexes, listIndexes_attempt, try_catch, bind at 1.
    rewrite (Hrun _ _ H). unfold bind at 1. rewrite keep_user_index_run. reflexivity.
  - intros response e' H Hin. unfold listIndexes, listIndexes_attempt, try_catch, bind at 1.
    rewrite (Hrun _ _ H). unfold bind at 1.
    rewrite (keep_user_index_missing response [] _ Hin). reflexivity.
  - intros names. unfold listIndexes, listIndexes_attempt, try_catch, bind at 1. rewrite call_run.
    destruct (client_cat_indices ext (external w)) as [[e | response] e']; cbn [fst snd].
    + discriminate.
    + unfold bind at 1.
      destruct (in_dec (fun a b : option string =>
                          ltac:(decide equality; apply string_dec)) None response)
        as [Hin | Hnot].
      * rewrite (keep_user_index_missing response [] _ Hin). discriminate.
      * assert (Hall : exists ns, response = map Some ns).
        { clear - Hnot. induction response as [|[n|] response IH].
          - exists []. reflexivity.
          - destruct IH as [ns ->]; [intros H; apply Hnot; now right|].
            exists (n :: ns). reflexivity.
          - exfalso. apply Hnot. now left. }
        destruct Hall as [ns ->]. rewrite keep_user_index_run. cbn.
        intros H. injection H as <-.
        apply Forall_forall. intros n Hn. apply filter_In in Hn.
        destruct Hn as [_ Hn]. now apply negb_true_iff in Hn.
Qed.

(** ** Describing an index *)

Lemma call_answer {Ext R : Type} (c : Call) (f : Ext -> (Exn + R) * Ext) (w : World Ext)
      (r : Exn + R) (e : Ext) :
  f (external w) = (r, e) -> call c f w = (r, after_call w c e).
Proof. intros H. rewrite call_run, H. reflexivity. Qed.

(** X8.  [describeIndex] rejects an index that is not configured for
    vector search, after the mapping call and before any count: when the
    mapping has no [vector] field, when the field is not of type
    [dense_vector], and when its [dims] is missing or zero; each case
    throws its own message, wrapped, and no stats, count or search call is
    issued. *)
Theorem describeIndex_rejects_unconfigured {Ext : Type} (ext : External Ext)
        (indexName : string) (w w1 : World Ext) (flavor : bool)
        (mappings : GetMappingResponse) (e2 : Ext) :
  detectServerless ext w = (inr flavor, w1) ->
  client_indices_getMapping ext indexName (external w1) = (inr mappings, e2) ->
  let field := match by_index indexName mappings with Some f => f | None => None end in
  let failure reason :=
    fst (describeIndex ext indexName w) =
    inl (Error ("Failed to describe index " ++ quoted indexName ++ ": " ++ reason)) /\
    trace (snd (describeIndex ext indexName w)) =
    (trace w1 ++ [CallIndicesGetMapping indexName])%list in
  (field = None ->
   failure ("Index " ++ quoted indexName ++ " is not configured for vector search. " ++
            "Expected a 'vector' field of type 'dense_vector', but field not found")) /\
  (forall f,
      field = Some f -> vf_type f <> "dense_vector" ->
      failure ("Index " ++ quoted indexName ++ " is not configured for vector search. " ++
               "Expected a 'vector' field of type 'dense_vector', but found type '" ++
               vf_type f ++ "'")) /\
  (forall f,
      field = Some f -> vf_type f = "dense_vector" ->
      vf_dims f = None \/ vf_dims f = Some 0%Z ->
      failure ("Index " ++ quoted indexName ++
               " has a 'vector' field but dimensions are not specified")).
Proof.
  intros Hdetect Hmap field failure.
  assert (Hstart : forall A (k : bool -> GetMappingResponse -> M Ext A) handler,
             try_catch
               (bind (detectServerless ext)
                     (fun s => bind (call (CallIndicesGetMapping indexName)
                                          (client_indices_getMapping ext indexName))
                                    (k s))) handler w =
             try_catch (k flavor mappings) handler
                       (after_call w1 (CallIndicesGetMapping indexName) e2)).
  { intros A k handler. unfold try_catch, bind. rewrite Hdetect.
    rewrite (call_answer _ _ _ _ _ Hmap). reflexivity. }
  unfold failure, describeIndex, describeIndex_attempt. rewrite Hstart. fold field.
  split; [|split].
  - intros ->. split; reflexivity.
  - intros f -> Hty. apply String.eqb_neq in Hty.
    unfold try_catch. rewrite Hty. split; reflexivity.
  - intros f -> Hty Hdims. unfold try_catch.
    rewrite Hty, String.eqb_refl. cbn [negb].
    destruct Hdims as [-> | ->]; split; reflexivity.
Qed.

(** X9.  The count of [describeIndex] on a standard deployment.  For a
    valid vector field the stats API is called first; when it answers, its
    document count (0 when the response lacks it) is returned with the
    dimension and the metric and no count call is made; when it fails the
    count API is called once, its count is returned, and if that fails too
    the operation throws the count error, wrapped.  No search is issued. *)
Theorem describeIndex_standard_count {Ext : Type} (ext : External Ext)
        (indexName : string) (w w1 : World Ext) (mappings : GetMappingResponse) (e2 : Ext)
        (f : VectorField) (dimension : Z) :
  detectServerless ext w = (inr false, w1) ->
  client_indices_getMapping ext indexName (external w1) = (inr mappings, e2) ->
  by_index indexName mappings = Some (Some f) ->
  vf_type f = "dense_vector" ->
  vf_dims f = Some dimension ->
  dimension <> 0%Z ->
  let metric :=
    mapSimilarityToMetric
      match vf_similarity f with None | Some EmptyString => "cosine" | Some s => s end in
  let outcome := fst (describeIndex ext indexName w) in
  let calls := skipn (length (trace w1)) (trace (snd (describeIndex ext indexName w))) in
  match client_indices_stats ext indexName e2 with
  | (inr stats, _) =>
      outcome =
      inr {| stats_dimension := dimension; stats_metric := metric;
             stats_count :=
               match stats_indices stats with
               | Some indices =>
                   match by_index indexName indices with
                   | Some c => count_or_zero c
                   | None => 0%Z
                   end
               | None => 0%Z
               end |} /\
      calls = [CallIndicesGetMapping indexName; CallIndicesStats indexName]
  | (inl _, e3) =>
      calls = [CallIndicesGetMapping indexName; CallIndicesStats indexName;
               CallCount indexName] /\
      match fst (client_count ext indexName e3) with
      | inr response =>
          outcome =
          inr {| stats_dimension := dimension; stats_metric := metric;
                 stats_count := count_or_zero (count_value response) |}
      | inl cause =>
          outcome =
          inl (Error ("Failed to describe index " ++ quoted indexName ++ ": " ++
                      error_message cause))
      end
  end.
Proof.
  intros Hdetect Hmap Hfield Hty Hdims Hnz metric outcome calls.
  assert (Hstart : forall A (k : bool -> GetMappingResponse -> M Ext A) handler,
             try_catch
               (bind (detectServerless ext)
                     (fun s => bind (call (CallIndicesGetMapping indexName)
                                          (client_indices_getMapping ext indexName))
                                    (k s))) handler w =
             try_catch (k false mappings) handler
                       (after_call w1 (CallIndicesGetMapping indexName) e2)).
  { intros A k handler. unfold try_catch, bind. rewrite Hdetect.
    rewrite (call_answer _ _ _ _ _ Hmap). reflexivity. }
  assert (Hskip : forall (l extra : list Call), skipn (length l) (l ++ extra) = extra).
  { intros l extra. induction l; cbn; auto. }
  unfold outcome, calls, describeIndex, describeIndex_attempt. rewrite Hstart, Hfield. cbv beta iota.
  rewrite Hty, String.eqb_refl, Hdims. cbn [negb].
  destruct dimension as [|p|p]; [congruence| |];
    cbv [try_catch bind standard_count log ret throw];
    rewrite call_run; cbn [external after_call fst snd];
    destruct (client_indices_stats ext indexName e2) as [[cause | stats] e3];
    cbn [fst snd].
  all: try (cbn [trace after_call]; split; [reflexivity | rewrite <- !app_assoc; apply Hskip]).
  all: rewrite call_run; cbn [external fst snd];
    destruct (client_count ext indexName e3) as [[cause' | response] e4];
    cbn [fst snd trace after_call];
    (split; [rewrite <- !app_assoc; apply Hskip | reflexivity]).
Qed.

(** X10.  The count of [describeIndex] on a serverless deployment.  The
    count API is called first; when it fails, one search of size 0 is
    issued with [track_total_hits] set to the instance's
    [maxCountAccuracy], and the total of its hits (a number, or the
    [value] of an object, or 0) is returned; when the search fails too the
    operation throws its error, wrapped.  The stats API is never called. *)
Theorem describeIndex_serverless_count {Ext : Type} (ext : External Ext)
        (indexName : string) (w w1 : World Ext) (mappings : GetMappingResponse) (e2 : Ext)
        (f : VectorField) (dimension : Z) :
  detectServerless ext w = (inr true, w1) ->
  client_indices_getMapping ext indexName (external w1) = (inr mappings, e2) ->
  by_index indexName mappings = Some (Some f) ->
  vf_type f = "dense_vector" ->
  vf_dims f = Some dimension ->
  dimension <> 0%Z ->
  let metric :=
    mapSimilarityToMetric
      match vf_similarity f with None | Some EmptyString => "cosine" | Some s => s end in
  let outcome := fst (describeIndex ext indexName w) in
  let calls := skipn (length (trace w1)) (trace (snd (describeIndex ext indexName w))) in
  let fallback :=
    {| sr_index := indexName; sr_knn := None; sr_size := num_of_Z 0; sr_source := None;
       sr_track_total_hits := Some (maxCountAccuracy w1) |} in
  match client_count ext indexName e2 with
  | (inr response, _) =>
      outcome =
      inr {| stats_dimension := dimension; stats_metric := metric;
             stats_count := count_or_zero (count_value response) |} /\
      calls = [CallIndicesGetMapping indexName; CallCount indexName]
  | (inl _, e3) =>
      calls = [CallIndicesGetMapping indexName; CallCount indexName; CallSearch fallback] /\
      match fst (client_search ext fallback e3) with
      | inr response =>
          outcome =
          inr {| stats_dimension := dimension; stats_metric := metric;
                 stats_count :=
                   match hits_total response with
                   | Some (TotalNumber n) => n
                   | Some (TotalObject value _) => count_or_zero value
                   | None => 0%Z
                   end |}
      | inl cause =>
          outcome =
          inl (Error ("Failed to describe index " ++ quoted indexName ++ ": " ++
                      error_message cause))
      end
  end.
Proof.
  intros Hdetect Hmap Hfield Hty Hdims Hnz metric outcome calls fallback.
  assert (Hstart : forall A (k : bool -> GetMappingResponse -> M Ext A) handler,
             try_catch
               (bind (detectServerless ext)
                     (fun s => bind (call (CallIndicesGetMapping indexName)
                                          (client_indices_getMapping ext indexName))
                                    (k s))) handler w =
             try_catch (k true mappings) handler
                       (after_call w1 (CallIndicesGetMapping indexName) e2)).
  { intros A k handler. unfold try_catch, bind. rewrite Hdetect.
    rewrite (call_answer _ _ _ _ _ Hmap). reflexivity. }
  assert (Hskip : forall (l extra : list Call), skipn (length l) (l ++ extra) = extra).
  { intros l extra. induction l; cbn; auto. }
  unfold outcome, calls, describeIndex, describeIndex_attempt. rewrite Hstart, Hfield. cbv beta iota.
  rewrite Hty, String.eqb_refl, Hdims. cbn [negb].
  destruct dimension as [|p|p]; [congruence| |];
    cbv [try_catch bind serverless_count log ret throw read];
    rewrite call_run; cbn [external after_call fst snd];
    destruct (client_count ext indexName e2) as [[cause | response] e3];
    cbn [fst snd].
  all: try (cbn [trace after_call]; split; [reflexivity | rewrite <- !app_assoc; apply Hskip]).
  all: rewrite call_run; cbn [maxCountAccuracy after_call external fst snd]; fold fallback;
    destruct (client_search ext fallback e3) as [[cause' | response] e4];
    cbn [fst snd trace after_call].
  all: try (split; [rewrite <- !app_assoc; apply Hskip | reflexivity]).
  all: destruct (hits_total response) as [[n | value relation]|]; cbn [fst snd trace];
    try destruct (String.eqb relation "gte"); cbn [fst snd trace];
    (split; [rewrite <- !app_assoc; apply Hskip | reflexivity]).
Qed.

(** ** Metric mapping, beyond the supported names *)




Lemma mapMetricToSimilarity_run {Ext : Type} (metric : string) (w : World Ext) :
  exists similarity warnings,
    mapMetricToSimilarity metric w = (inr similarity, add_logs w warnings).
Proof.
  unfold mapMetricToSimilarity.
  destruct (Metric.lookup (toLowerCase metric) Metric.metricMap) as [similarity|].
  - exists similarity, []. now rewrite add_logs_nil.
  - eexists _, _. reflexivity.
Qed.


(** ** Creating an index that does not exist *)

(** X12.  [createIndex] on an index that does not exist issues one
    index-create call: a [dense_vector] field [vector] of the requested
    dimension with the mapped similarity, an open [metadata] object, and
    the settings of one shard and no replica exactly when the deployment
    is not serverless.  It returns when the call answers and throws the
    wrapped error when it fails. *)
Theorem createIndex_new_index {Ext : Type} (ext : External Ext)
        (indexName : string) (dimension : Z) (requested : option string)
        (w w2 : World Ext) (e1 : Ext) (serverless : bool) :
  let params :=
    {| ci_indexName := indexName; ci_dimension := dimension; ci_metric := requested |} in
  let metric := match requested with Some m => m | None => "cosine" end in
  client_indices_exists ext indexName (external w) = (inr false, e1) ->
  detectServerless ext (after_call w (CallIndicesExists indexName) e1) =
  (inr serverless, w2) ->
  exists similarity warnings,
    mapMetricToSimilarity metric w2 = (inr similarity, add_logs w2 warnings) /\
    let config :=
      {| ic_index := indexName;
         ic_vector :=
           {| vf_type := "dense_vector"; vf_dims := Some dimension;
              vf_index := Some true; vf_similarity := Some similarity |};
         ic_metadata := {| mf_type := "object"; mf_enabled := true; mf_dynamic := true |};
         ic_settings :=
           if serverless then None
           else Some {| number_of_shards := 1; number_of_replicas := 0 |} |} in
    trace (snd (createIndex ext params w)) = (trace w2 ++ [CallIndicesCreate config])%list /\
    match fst (client_indices_create ext config (external w2)) with
    | inr _ => fst (createIndex ext params w) = inr tt
    | inl cause =>
        fst (createIndex ext params w) =
        inl (Error ("Failed to create index " ++ quoted indexName ++ ": " ++
                    error_message cause))
    end.
Proof.
  intros params metric Hexists Hdetect.
  destruct (mapMetricToSimilarity_run metric w2) as (similarity & warnings & Hmap).
  exists similarity, warnings. split; [exact Hmap|].
  intros config.
  remember (createIndex ext params w) as run eqn:Hrun.
  unfold createIndex, createIndex_attempt in Hrun. cbn [ci_indexName ci_dimension ci_metric params] in Hrun.
  fold metric in Hrun.
  unfold try_catch at 1, bind at 1 in Hrun.
  rewrite (call_answer _ _ _ _ _ Hexists) in Hrun. cbv beta iota in Hrun.
  unfold bind at 1 in Hrun. rewrite Hdetect in Hrun. cbv beta iota in Hrun.
  unfold bind at 1 in Hrun. rewrite Hmap in Hrun. cbv beta iota in Hrun. fold config in Hrun.
  unfold bind at 1 in Hrun. rewrite call_run in Hrun.
  cbn [external add_logs fst snd] in Hrun.
  destruct (client_indices_create ext config (external w2)) as [[cause | []] e3];
    cbn [fst snd] in *; subst run; split; reflexivity.
Qed.

(** ** Filter translation, entry by entry *)

Lemma entry_accounted (entry : string * JsValue) :
  length (entry_clauses entry) + length (entry_warnings entry) +
  (if is_nullish (snd entry) then 1 else 0) = 1 /\
  Forall (fun l => is_warning l = true) (entry_warnings entry).
Proof.
  destruct entry as [key value].
  destruct value as [ | | b | x | s | elems | props]; cbn; auto.
  unfold entry_warnings, entry_clauses.
  destruct (own_prop "$eq" props); [cbn; auto|].
  destruct (own_prop "$in" props) as [[ | | b | x | s | elems | props']|];
    try (cbn; now auto);
    (destruct (own_prop "$ne" props); [cbn; auto|];
     destruct (own_prop "$gt" props); [cbn; auto|];
     destruct (own_prop "$gte" props); [cbn; auto|];
     destruct (own_prop "$lt" props); [cbn; auto|];
     destruct (own_prop "$lte" props); cbn; auto).
Qed.

(** X13.  Every entry of a filter object is accounted for exactly once:
    the number of clauses under [bool.must], the number of warnings logged
    and the number of entries with a null or undefined value add up to the
    number of entries; only warnings are logged; and the result is
    [undefined] exactly when there is no clause. *)
Theorem filter_entries_accounted {Ext : Type} (entries : list (string * JsValue))
        (w : World Ext) :
  exists must warnings,
    buildElasticFilter (JObj entries) w = (inr (bool_must must), add_logs w warnings) /\
    length must + length warnings +
    length (filter (fun entry => is_nullish (snd entry)) entries) = length entries /\
    Forall (fun l => is_warning l = true) warnings /\
    (must = [] -> bool_must must = JUndefined) /\
    (must <> [] -> bool_must must = JObj [("bool", JObj [("must", JArr must)])]).
Proof.
  exists (flat_map entry_clauses entries), (flat_map entry_warnings entries).
  split; [apply buildElasticFilter_object|]. split; [|split; [|split]].
  - induction entries as [|entry entries IH]; [reflexivity|].
    cbn [flat_map filter length]. rewrite !length_app.
    destruct (entry_accounted entry) as [H _].
    destruct (is_nullish (snd entry)); cbn [length]; lia.
  - induction entries as [|entry entries IH]; [constructor|].
    cbn [flat_map]. apply Forall_app. split; [apply entry_accounted | exact IH].
  - intros ->. reflexivity.
  - intros H. destruct (flat_map entry_clauses entries); [contradiction | reflexivity].
Qed.

(** X14.  An operator object contributes one clause, chosen by a fixed
    precedence, and its other operators are dropped without a warning.
    The order is [$eq], [$in] (with an array), [$ne], [$gt], [$gte],
    [$lt], [$lte]: the first of these the object holds gives the clause,
    whatever else the object holds, so a two-sided range [{$gte, $lte}]
    loses its upper bound; and an object that holds none of them gives no
    clause and one warning. *)
Theorem filter_operator_precedence {Ext : Type} (field : string)
        (props : list (string * JsValue)) (w : World Ext) :
  let compiled clause :=
    buildElasticFilter (JObj [(field, JObj props)]) w =
    (inr (JObj [("bool", JObj [("must", JArr [clause])])]), w) in
  let absent op := own_prop op props = None in
  let no_list := forall vs, own_prop "$in" props <> Some (JArr vs) in
  (forall v, own_prop "$eq" props = Some v ->
             compiled (term_clause (keyword_field field) v)) /\
  (forall vs,
      absent "$eq" ->
      own_prop "$in" props = Some (JArr vs) ->
      compiled (terms_clause (keyword_field field) (JArr vs))) /\
  (forall v,
      absent "$eq" -> no_list ->
      own_prop "$ne" props = Some v ->
      compiled (must_not_clause (keyword_field field) v)) /\
  (forall lo,
      absent "$eq" -> no_list -> absent "$ne" ->
      own_prop "$gt" props = Some lo ->
      compiled (range_clause (raw_field field) "gt" lo)) /\
  (forall lo,
      absent "$eq" -> no_list -> absent "$ne" -> absent "$gt" ->
      own_prop "$gte" props = Some lo ->
      compiled (range_clause (raw_field field) "gte" lo)) /\
  (forall hi,
      absent "$eq" -> no_list -> absent "$ne" -> absent "$gt" -> absent "$gte" ->
      own_prop "$lt" props = Some hi ->
      compiled (range_clause (raw_field field) "lt" hi)) /\
  (forall hi,
      absent "$eq" -> no_list -> absent "$ne" -> absent "$gt" -> absent "$gte" ->
      absent "$lt" ->
      own_prop "$lte" props = Some hi ->
      compiled (range_clause (raw_field field) "lte" hi)) /\
  (absent "$eq" -> no_list -> absent "$ne" -> absent "$gt" -> absent "$gte" ->
   absent "$lt" -> absent "$lte" ->
   buildElasticFilter (JObj [(field, JObj props)]) w =
   (inr JUndefined, add_logs w [unsupported_warning field (JObj props)])).
Proof.
  intros compiled absent no_list. unfold compiled, absent, no_list.
  assert (Hin : forall (A : Type) (x : list JsValue -> A) (y : A),
             (forall vs, own_prop "$in" props <> Some (JArr vs)) ->
             match own_prop "$in" props with
             | Some (JArr vs) => x vs
             | _ => y
             end = y).
  { intros A x y Hno.
    destruct (own_prop "$in" props) as [[ | | b | n | s | elems | props']|]; try reflexivity.
    exfalso. apply (Hno elems). reflexivity. }
  repeat split.
  - intros v Heq. rewrite buildElasticFilter_object. cbn [flat_map entry_clauses entry_warnings].
    rewrite Heq. cbn. rewrite add_logs_nil. reflexivity.
  - intros vs Heq Hlist. rewrite buildElasticFilter_object.
    cbn [flat_map entry_clauses entry_warnings].
    rewrite Heq, Hlist. cbn. rewrite add_logs_nil. reflexivity.
  - intros v Heq Hno Hne. rewrite buildElasticFilter_object.
    cbn [flat_map entry_clauses entry_warnings].
    rewrite Heq, !Hin, Hne by exact Hno. cbn. rewrite add_logs_nil. reflexivity.
  - intros lo Heq Hno Hne Hgt. rewrite buildElasticFilter_object.
    cbn [flat_map entry_clauses entry_warnings].
    rewrite Heq, !Hin, Hne, Hgt by exact Hno. cbn. rewrite add_logs_nil. reflexivity.
  - intros lo Heq Hno Hne Hgt Hgte. rewrite buildElasticFilter_object.
    cbn [flat_map entry_clauses entry_warnings].
    rewrite Heq, !Hin, Hne, Hgt, Hgte by exact Hno. cbn. rewrite add_logs_nil. reflexivity.
  - intros hi Heq Hno Hne Hgt Hgte Hlt. rewrite buildElasticFilter_object.
    cbn [flat_map entry_clauses entry_warnings].
    rewrite Heq, !Hin, Hne, Hgt, Hgte, Hlt by exact Hno. cbn. rewrite add_logs_nil.
    reflexivity.
  - intros hi Heq Hno Hne Hgt Hgte Hlt Hlte. rewrite buildElasticFilter_object.
    cbn [flat_map entry_clauses entry_warnings].
    rewrite Heq, !Hin, Hne, Hgt, Hgte, Hlt, Hlte by exact Hno. cbn. rewrite add_logs_nil.
    reflexivity.
  - intros Heq Hno Hne Hgt Hgte Hlt Hlte. rewrite buildElasticFilter_object.
    cbn [flat_map entry_clauses entry_warnings].
    rewrite Heq, !Hin, Hne, Hgt, Hgte, Hlt, Hlte by exact Hno. reflexivity.
Qed.

(** X15.  Equality and negation target the exact-match field.  A literal
    value (anything but null, undefined or a plain object, so an array
    too) compiles to a [term] on [metadata.<field>.keyword] with that
    value; [{$eq: v}] to the same [term] with [v]; [{$ne: v}] to a
    [bool.must_not] of that [term]; and [{$in: v}] with [v] not an array
    is skipped with one warning. *)
Theorem filter_equality_on_keyword {Ext : Type} (field : string) (w : World Ext) :
  let compiled value clause :=
    buildElasticFilter (JObj [(field, value)]) w =
    (inr (JObj [("bool", JObj [("must", JArr [clause])])]), w) in
  (forall value,
      is_nullish value = false ->
      match value with JObj _ => False | _ => True end ->
      compiled value (JObj [("term", JObj [("metadata." ++ field ++ ".keyword", value)])])) /\
  (forall v,
      compiled (JObj [("$eq", v)])
               (JObj [("term", JObj [("metadata." ++ field ++ ".keyword", v)])])) /\
  (forall v,
      compiled (JObj [("$ne", v)])
               (JObj [("bool", JObj [("must_not",
                  JObj [("term", JObj [("metadata." ++ field ++ ".keyword", v)])])])])) /\
  (forall v,
      match v with JArr _ => False | _ => True end ->
      exists warning,
        buildElasticFilter (JObj [(field, JObj [("$in", v)])]) w =
        (inr JUndefined, add_logs w [warning]) /\ is_warning warning = true).
Proof.
  intros compiled. unfold compiled. split; [|split; [|split]].
  - intros value Hnull Hplain. rewrite buildElasticFilter_object.
    destruct value; try discriminate; try contradiction;
      cbn; rewrite add_logs_nil; reflexivity.
  - intros v. rewrite buildElasticFilter_object. cbn. rewrite add_logs_nil. reflexivity.
  - intros v. rewrite buildElasticFilter_object. cbn. rewrite add_logs_nil. reflexivity.
  - intros v Hv. rewrite buildElasticFilter_object.
    destruct v; try contradiction; eexists; cbn; split; reflexivity.
Qed.

(** ** Deployment detection, continued *)

(** X16.  Detection is idempotent: calling [detectServerless] twice in a
    row gives the result and the world of calling it once, so the second
    call returns the flavor of the first and adds no call and no log. *)
Theorem detectServerless_idempotent {Ext : Type} (ext : External Ext) (w : World Ext) :
  bind (detectServerless ext) (fun _ => detectServerless ext) w = detectServerless ext w.
Proof.
  unfold bind at 1.
  destruct (detectServerless_run ext w) as (flavor & w' & Hrun & Hchecked & _).
  rewrite Hrun.
  assert (Hcached : match isServerless w' with Some b => b | None => false end = flavor).
  { clear Hchecked. revert Hrun.
    unfold detectServerless, bind, read, ret, try_catch, set_deploymentChecked,
      set_isServerless, log.
    destruct (deploymentChecked w) eqn:Hc.
    - intros H. injection H as <- <-. reflexivity.
    - destruct (isServerless w) as [b|] eqn:Hs.
      + intros H. injection H as <- <-. cbn [isServerless]. now rewrite Hs.
      + rewrite call_run. cbn [fst snd].
        destruct (fst (client_info ext (external w))) as [e | info];
          intros H; injection H as <- <-; reflexivity. }
  unfold detectServerless at 1, bind, read, ret. rewrite Hchecked, Hcached. reflexivity.
Qed.

Lemma startsWith_prefix (p s : string) :
  startsWith p s = true <-> exists rest, s = p ++ rest.
Proof.
  revert s. induction p as [|a p IH]; intros s; cbn.
  - split; [intros _; exists s; reflexivity | reflexivity].
  - destruct s as [|b s]; cbn.
    + split; [discriminate | intros [rest H]; discriminate].
    + rewrite andb_true_iff, IH. split.
      * intros [Hab [rest ->]]. apply Ascii.eqb_eq in Hab. subst. exists rest. reflexivity.
      * intros [rest H]. injection H as -> ->. split; [apply Ascii.eqb_refl | eauto].
Qed.

(** [includes] is the substring test. *)
Lemma includes_substring (p s : string) :
  includes p s = true <-> exists before after, s = before ++ p ++ after.
Proof.
  induction s as [|c s IH].
  - cbn [includes]. rewrite orb_false_r, startsWith_prefix. split.
    + intros [rest H]. exists EmptyString, rest. exact H.
    + intros (before & after & H). destruct before as [|b before]; [|discriminate].
      exists after. exact H.
  - cbn [includes]. rewrite orb_true_iff, startsWith_prefix, IH. split.
    + intros [[rest H] | (before & after & H)].
      * exists EmptyString, rest. exact H.
      * exists (String c before), after. cbn. now rewrite H.
    + intros (before & after & H). destruct before as [|b before].
      * left. exists after. exact H.
      * right. cbn in H. injection H as -> ->. eauto.
Qed.

(** X17.  What the introspection decides.  On an unchecked instance
    without explicit flavor, when [client.info()] answers, the deployment
    is classified serverless exactly when the build flavor is
    "serverless" or the tagline, in lower case, contains "serverless";
    the result is recorded, the deployment marked checked, and the one
    call issued is the introspection. *)
Theorem detection_classifies {Ext : Type} (ext : External Ext) (w : World Ext)
        (info : InfoResponse) (e' : Ext) :
  deploymentChecked w = false ->
  isServerless w = None ->
  client_info ext (external w) = (inr info, e') ->
  let flavor :=
    match info_version info with Some v => build_flavor v | None => None end in
  let mentions_serverless :=
    exists tagline before after,
      info_tagline info = Some tagline /\
      toLowerCase tagline = before ++ "serverless" ++ after in
  exists detected w',
    detectServerless ext w = (inr detected, w') /\
    isServerless w' = Some detected /\
    deploymentChecked w' = true /\
    trace w' = (trace w ++ [CallInfo])%list /\
    (detected = true <-> flavor = Some "serverless" \/ mentions_serverless).
Proof.
  intros Hc Hs Hinfo flavor mentions.
  unfold detectServerless, bind, read, ret, try_catch. rewrite Hc, Hs.
  rewrite (call_answer _ _ _ _ _ Hinfo). cbv beta iota.
  eexists _, _. split; [reflexivity|]. cbn [isServerless deploymentChecked trace after_call].
  split; [reflexivity|]. split; [reflexivity|]. split; [reflexivity|].
  fold flavor. rewrite orb_true_iff. unfold mentions. split.
  - intros [H | H].
    + left. destruct flavor as [f|]; [|discriminate].
      apply String.eqb_eq in H. now subst.
    + right. destruct (info_tagline info) as [t|]; [|discriminate].
      apply includes_substring in H. destruct H as (before & after & H). eauto.
  - intros [H | (t & before & after & Ht & H)].
    + left. rewrite H. apply String.eqb_refl.
    + right. rewrite Ht. apply includes_substring. eauto.
Qed.

(** ** Generated ids *)

Lemma no_underscore_split (x x' s s' : string) :
  includes "_" s = false ->
  includes "_" s' = false ->
  x ++ "_" ++ s = x' ++ "_" ++ s' ->
  x = x' /\ s = s'.
Proof.
  intros Hs Hs'. revert x'.
  assert (Hfree : forall t a b, includes "_" t = false -> t <> a ++ "_" ++ b).
  { intros t a b Ht E.
    assert (includes "_" t = true) by (apply includes_substring; eauto).
    congruence. }
  induction x as [|c x IH]; intros [|c' x'] E; cbn in E.
  - injection E as E. auto.
  - injection E as Hc E. exfalso. apply (Hfree s x' s' Hs). exact E.
  - injection E as Hc E. exfalso. apply (Hfree s' x s Hs'). now symmetry.
  - injection E as Hc E. destruct (IH x' E) as [-> ->]. subst. auto.
Qed.

Lemma digits_no_underscore (d : Decimal.uint) :
  includes "_" (NilEmpty.string_of_uint d) = false.
Proof.
  induction d; cbn [NilEmpty.string_of_uint includes startsWith];
    try reflexivity; rewrite IHd; reflexivity.
Qed.

Lemma nat_to_string_inj (n m : nat) : nat_to_string n = nat_to_string m -> n = m.
Proof.
  unfold nat_to_string. intros E.
  apply Unsigned.to_uint_inj.
  assert (H : Some (Nat.to_uint n) = Some (Nat.to_uint m)).
  { rewrite <- !NilEmpty.usu, E. reflexivity. }
  now injection H.
Qed.

Lemma generated_ids_run {Ext : Type} (ext : External Ext) (positions : list nat)
      (w : World Ext) :
  exists ids e',
    map_M (generate_id ext) positions w =
    (inr ids,
     {| isServerless := isServerless w;
        deploymentChecked := deploymentChecked w;
        maxCountAccuracy := maxCountAccuracy w;
        external := e';
        trace := trace w;
        logs := logs w |}) /\
    Forall2 (generated_for ext) positions ids.
Proof.
  revert w. induction positions as [|i positions IH]; intros w.
  - exists [], (external w). split; [destruct w; reflexivity | constructor].
  - cbn [map_M]. unfold bind at 1, generate_id at 1, bind, sample, ret.
    destruct (date_now ext (external w)) as [now e1] eqn:Hnow. cbn [external].
    destruct (random_suffix ext e1) as [suffix e2] eqn:Hsuffix.
    match goal with
    | |- context [map_M _ positions ?w1] => destruct (IH w1) as (ids & e' & Hrun & Hall)
    end.
    rewrite Hrun. cbn.
    eexists _, e'. split; [reflexivity|].
    constructor; [|exact Hall].
    exists now, e1. rewrite Hsuffix. reflexivity.
Qed.

Lemma generated_for_position {Ext : Type} (ext : External Ext) (i j : nat) (id : string) :
  (forall e, includes "_" (fst (random_suffix ext e)) = false) ->
  generated_for ext i id -> generated_for ext j id -> i = j.
Proof.
  intros Hfree (now & e & Hi) (now' & e' & Hj).
  rewrite Hi in Hj. clear Hi.
  assert (Hassoc : forall a b c : string,
             "vec_" ++ a ++ "_" ++ b ++ "_" ++ c = (("vec_" ++ a) ++ "_" ++ b) ++ "_" ++ c).
  { intros. rewrite !append_assoc. reflexivity. }
  rewrite !Hassoc in Hj.
  apply no_underscore_split in Hj; [|apply Hfree|apply Hfree]. destruct Hj as [Hj _].
  apply no_underscore_split in Hj; [|apply digits_no_underscore|apply digits_no_underscore].
  destruct Hj as [_ Hj]. now apply nat_to_string_inj.
Qed.

Lemma generated_distinct {Ext : Type} (ext : External Ext) (positions : list nat)
      (ids : list string) :
  (forall e, includes "_" (fst (random_suffix ext e)) = false) ->
  NoDup positions ->
  Forall2 (generated_for ext) positions ids ->
  NoDup ids.
Proof.
  intros Hfree Hnd Hall. induction Hall as [|i id positions ids Hid Hall IH].
  - constructor.
  - inversion Hnd as [|? ? Hnotin Hnd']; subst. constructor; [|auto].
    intros Hin. apply Hnotin.
    clear - Hfree Hid Hall Hin.
    induction Hall as [|j id' positions ids Hj Hall IH]; [contradiction|].
    destruct Hin as [-> | Hin].
    + left. symmetry. eapply generated_for_position; eauto.
    + right. auto.
Qed.

(** X20.  Ids generated for a batch.  When the ids are omitted and the
    random suffix holds no underscore (it is made of base-36 digits),
    [upsert] generates one id per vector, all starting with "vec_" and
    pairwise distinct, without any client call, and then behaves as if
    those ids had been supplied. *)
Theorem upsert_generated_ids {Ext : Type} (ext : External Ext) (indexName : string)
        (vectors : list (list number)) (metadata : option (list JsValue)) (w : World Ext) :
  (forall e, includes "_" (fst (random_suffix ext e)) = false) ->
  exists ids w',
    map_M (generate_id ext) (seq 0 (length vectors)) w = (inr ids, w') /\
    trace w' = trace w /\
    length ids = length vectors /\
    NoDup ids /\
    Forall (fun id => startsWith "vec_" id = true) ids /\
    upsert ext
      {| up_indexName := indexName; up_vectors := vectors;
         up_metadata := metadata; up_ids := None |} w =
    upsert ext
      {| up_indexName := indexName; up_vectors := vectors;
         up_metadata := metadata; up_ids := Some ids |} w'.
Proof.
  intros Hfree.
  destruct (generated_ids_run ext (seq 0 (length vectors)) w) as (ids & e' & Hrun & Hall).
  eexists ids, _. split; [exact Hrun|]. split; [reflexivity|]. split; [|split; [|split]].
  - apply Forall2_length in Hall. rewrite length_seq in Hall. auto.
  - eapply generated_distinct; eauto. apply seq_NoDup.
  - clear - Hall. induction Hall as [|i id positions ids Hid Hall IH]; constructor; auto.
    destruct Hid as (now & e & ->). reflexivity.
  - unfold upsert, upsert_attempt, try_catch. cbn [up_ids up_vectors up_metadata up_indexName].
    unfold bind at 1. rewrite Hrun. unfold bind at 2, ret at 1. reflexivity.
Qed.

(** ** The search request of [query] *)

Lemma query_request_run {Ext : Type} (ext : External Ext) (params : QueryVectorParams)
      (w : World Ext) :
  let topK := match qp_topK params with Some k => k | None => num_of_Z 10 end in
  let includeVector := match qp_includeVector params with Some b => b | None => false end in
  exists attached,
    trace (snd (query ext params w)) =
    (trace w ++
     [CallSearch
        {| sr_index := qp_indexName params;
           sr_knn :=
             Some {| knn_field := "vector";
                     knn_query_vector := qp_queryVector params;
                     knn_k := topK;
                     knn_num_candidates := js_max (js_mul topK (num_of_Z 10)) (num_of_Z 100);
                     knn_filter := attached |};
           sr_size := topK;
           sr_source :=
             Some (if includeVector then ["metadata"; "vector"] else ["metadata"]);
           sr_track_total_hits := None |}])%list.
Proof.
  intros topK includeVector.
  destruct (buildElasticFilter_total (qp_filter params) w) as (compiled & warnings & Hc).
  unfold query, query_attempt, try_catch, bind. fold topK includeVector.
  destruct (truthy (qp_filter params)).
  - rewrite Hc. cbv beta iota. unfold ret. cbv beta iota. rewrite call_run.
    exists (Some compiled).
    destruct (fst (client_search ext _ _)); reflexivity.
  - unfold ret. cbv beta iota. rewrite call_run. exists None.
    destruct (fst (client_search ext _ _)); reflexivity.
Qed.

(** X18.  The search request of [query] beyond its k-NN counts: it names
    the index, its [size] is [topK], it asks for the [metadata] source
    field and for [vector] only when [includeVector] is true, it searches
    the field [vector] with the query vector, and with [topK] omitted it
    asks for 10 results among 100 candidates. *)
Theorem query_search_request {Ext : Type} (ext : External Ext) (params : QueryVectorParams)
        (w : World Ext) :
  let includeVector := match qp_includeVector params with Some b => b | None => false end in
  exists request knn,
    trace (snd (query ext params w)) = (trace w ++ [CallSearch request])%list /\
    sr_index request = qp_indexName params /\
    sr_size request = match qp_topK params with Some k => k | None => num_of_Z 10 end /\
    sr_source request = Some (if includeVector then ["metadata"; "vector"] else ["metadata"]) /\
    sr_track_total_hits request = None /\
    sr_knn request = Some knn /\
    knn_field knn = "vector" /\
    knn_query_vector knn = qp_queryVector params /\
    (qp_topK params = None ->
     knn_k knn = num_of_Z 10 /\ knn_num_candidates knn = num_of_Z 100).
Proof.
  intros includeVector.
  destruct (query_request_run ext params w) as [attached H]. cbv zeta in H.
  eexists _, _. split; [exact H|].
  cbn [sr_index sr_size sr_source sr_track_total_hits sr_knn knn_field knn_query_vector
       knn_k knn_num_candidates].
  repeat (split; [reflexivity|]). intros ->. split; [reflexivity|].
  vm_compute. reflexivity.
Qed.

(** ** One request per operation *)

Lemma keep_user_index_world {Ext : Type} (response : list (option string))
      (kept : list string) (w : World Ext) :
  snd (for_of response keep_user_index kept w) = w.
Proof.
  revert kept. induction response as [|[n|] response IH]; intros kept; cbn [for_of].
  - reflexivity.
  - unfold bind, keep_user_index, ret. cbv beta iota. apply IH.
  - reflexivity.
Qed.

(** The one call of [upsert]: the bulk request built from the ids, given
    or generated. *)
Lemma upsert_request_run {Ext : Type} (ext : External Ext) (params : UpsertVectorParams)
      (w : World Ext) :
  exists ids w',
    match up_ids params with
    | Some given => ret given
    | None => map_M (generate_id ext) (seq 0 (length (up_vectors params)))
    end w = (inr ids, w') /\
    trace w' = trace w /\
    trace (snd (upsert ext params w)) =
    (trace w ++
     [CallBulk
        {| bulk_refresh := true;
           bulk_operations :=
             flat_map
               (fun '(index, vec) =>
                  [ActionIndex (up_indexName params) (nth_error ids index);
                   Document vec
                     (js_or (nth index
                                 match up_metadata params with Some m => m | None => [] end
                                 JUndefined) empty_object)])
               (indexed (up_vectors params)) |}])%list.
Proof.
  assert (Hids : exists ids w',
             match up_ids params with
             | Some given => ret given
             | None => map_M (generate_id ext) (seq 0 (length (up_vectors params)))
             end w = (inr ids, w') /\ trace w' = trace w).
  { destruct (up_ids params) as [given|].
    - eexists _, _. split; reflexivity.
    - destruct (generated_ids_run ext (seq 0 (length (up_vectors params))) w)
        as (ids & e' & Hrun & _).
      eexists _, _. split; [exact Hrun | reflexivity]. }
  destruct Hids as (ids & w' & Hids & Htrace).
  exists ids, w'. split; [exact Hids|]. split; [exact Htrace|].
  unfold upsert, upsert_attempt, try_catch. unfold bind at 1. rewrite Hids. cbv beta iota.
  unfold bind at 1. rewrite call_run. cbn [fst snd]. rewrite Htrace.
  destruct (fst (client_bulk ext _ _)) as [e | response]; [reflexivity|].
  cbv beta iota. destruct (bulk_errors response); [|reflexivity].
  unfold bind, log. cbn [fst snd].
  match goal with |- context [if ?c then _ else _] => destruct c end; reflexivity.
Qed.

(** X6.  [upsert], [query], [listIndexes], [deleteIndex] and
    [deleteVector] are one request each: whether the request answers or
    fails, exactly one client call is added to the trace; nothing is
    retried. *)
Theorem one_request_per_operation {Ext : Type} (ext : External Ext) (op : Operation)
        (w : World Ext) :
  one_request op = true ->
  exists c, trace (perform ext op w) = (trace w ++ [c])%list.
Proof.
  intros Hop. destruct op; try discriminate; cbn [perform].
  - destruct (upsert_request_run ext params w) as (ids & w' & _ & _ & H). eauto.
  - destruct (query_request_run ext params w) as [attached H]. cbv zeta in H. eauto.
  - exists CallCatIndices. unfold listIndexes, listIndexes_attempt, try_catch, bind at 1. rewrite call_run.
    destruct (client_cat_indices ext (external w)) as [[e | response] e']; cbn [fst snd].
    + reflexivity.
    + unfold bind at 1.
      match goal with
      | |- context [for_of response keep_user_index [] ?w1] =>
          pose proof (keep_user_index_world response [] w1) as Hw;
          destruct (for_of response keep_user_index [] w1) as [[e | names] w2]
      end; cbn [snd] in Hw; subst w2; reflexivity.
  - exists (CallIndicesDelete indexName). unfold deleteIndex, deleteIndex_attempt, try_catch, bind at 1.
    rewrite call_run.
    destruct (client_indices_delete ext indexName (external w)) as [[e | []] e'];
      reflexivity.
  - unfold deleteVector, deleteVector_attempt, try_catch, bind at 1. rewrite call_run.
    match goal with |- context [CallDelete ?r] => exists (CallDelete r) end.
    destruct (fst (client_delete ext _ _)) as [e | []]; reflexivity.
Qed.

(** ** The log of a partial failure *)

(** X21.  The log of a partial failure.  When the bulk response reports
    errors, [upsert] writes the count of failed items over the count of
    vectors to the console and to the logger, each with a sample of the
    failed items capped at three. *)
Theorem upsert_error_sample {Ext : Type} (ext : External Ext) (indexName : string)
        (vectors : list (list number)) (metadata : option (list JsValue)) (ids : list string)
        (w : World Ext) (response : BulkResponse) :
  let params :=
    {| up_indexName := indexName; up_vectors := vectors;
       up_metadata := metadata; up_ids := Some ids |} in
  let errored := filter failed (bulk_items response) in
  let summary :=
    "Failed to upsert " ++ nat_to_string (length errored) ++ "/" ++
    nat_to_string (length vectors) ++ " vectors" in
  (forall request, fst (client_bulk ext request (external w)) = inr response) ->
  bulk_errors response = true ->
  exists sample,
    sample = map error_detail (firstn 3 errored) /\
    length sample = Nat.min 3 (length errored) /\
    In (mkLog ConsoleError (summary ++ ". Sample errors:") [JArr sample])
       (logs (snd (upsert ext params w))) /\
    In (mkLog Err summary
          [JObj [("failedCount", js_of_nat (length errored));
                 ("totalCount", js_of_nat (length vectors));
                 ("sampleErrors", JArr sample)]])
       (logs (snd (upsert ext params w))).
Proof.
  intros params errored summary Hbulk Herrors.
  exists (map error_detail (firstn 3 errored)).
  split; [reflexivity|]. split; [now rewrite length_map, length_firstn|].
  remember (upsert ext params w) as run eqn:Hrun.
  unfold upsert, upsert_attempt, try_catch, bind, ret, throw in Hrun.
  cbn [up_ids up_vectors up_metadata up_indexName params] in Hrun.
  rewrite call_run in Hrun. cbn [fst snd] in Hrun. rewrite Hbulk, Herrors in Hrun.
  unfold log in Hrun. cbn [fst snd] in Hrun.
  change (fun item : BulkItem => truthy (index_error item)) with failed in Hrun.
  fold errored in Hrun. rewrite !length_map in Hrun. fold summary in Hrun.
  match type of Hrun with
  | context [if ?c then _ else _] => destruct c
  end; subst run; cbn [fst snd logs]; split; rewrite !in_app_iff; cbn [In]; auto 10.
Qed.

(** ** The bulk request of [upsert] *)

Lemma nth_or_default {A : Type} (l : list A) (i : nat) (d : A) :
  nth i l d = match nth_error l i with Some x => x | None => d end.
Proof.
  revert i. induction l as [|x l IH]; intros [|i]; cbn; auto.
Qed.

Lemma bulk_lines_at {L : Type} (action : nat -> L) (document : nat -> list number -> L)
      (vectors : list (list number)) (start : nat) :
  let lines :=
    flat_map (fun '(index, vec) => [action index; document index vec])
             (combine (seq start (length vectors)) vectors) in
  length lines = 2 * length vectors /\
  forall i vec,
    nth_error vectors i = Some vec ->
    nth_error lines (2 * i) = Some (action (start + i)) /\
    nth_error lines (2 * i + 1) = Some (document (start + i) vec).
Proof.
  revert start. induction vectors as [|v vectors IH]; intros start lines.
  - split; [reflexivity|]. intros [|i] vec H; discriminate.
  - subst lines. cbn [length seq combine flat_map app].
    destruct (IH (S start)) as [Hlen Hnth]. split.
    + cbn [length]. rewrite Hlen. lia.
    + intros [|i] vec H.
      * cbn in H. injection H as <-. rewrite Nat.add_0_r. split; reflexivity.
      * cbn [nth_error] in H. destruct (Hnth i vec H) as [H1 H2].
        replace (2 * S i) with (S (S (2 * i))) by lia.
        replace (S (S (2 * i)) + 1) with (S (S (2 * i + 1))) by lia.
        cbn [nth_error]. rewrite H1, H2.
        replace (start + S i) with (S start + i) by lia. split; reflexivity.
Qed.

(** X22.  The bulk request of [upsert]: it forces a refresh and holds two
    lines per vector, in order: the action line naming the index and the
    id at the vector's position (none when the ids are fewer than the
    vectors), then the document with the vector and the metadata at its
    position, the empty object standing in for a missing or falsy
    metadata entry. *)
Theorem upsert_bulk_request {Ext : Type} (ext : External Ext) (indexName : string)
        (vectors : list (list number)) (metadata : option (list JsValue)) (ids : list string)
        (w : World Ext) :
  let params :=
    {| up_indexName := indexName; up_vectors := vectors;
       up_metadata := metadata; up_ids := Some ids |} in
  exists request,
    trace (snd (upsert ext params w)) = (trace w ++ [CallBulk request])%list /\
    bulk_refresh request = true /\
    length (bulk_operations request) = 2 * length vectors /\
    forall i vec,
      nth_error vectors i = Some vec ->
      nth_error (bulk_operations request) (2 * i) =
      Some (ActionIndex indexName (nth_error ids i)) /\
      nth_error (bulk_operations request) (2 * i + 1) =
      Some (Document vec
              match metadata with
              | Some entries =>
                  match nth_error entries i with
                  | Some m => if truthy m then m else JObj []
                  | None => JObj []
                  end
              | None => JObj []
              end).
Proof.
  intros params.
  destruct (upsert_request_run ext params w) as (given & w' & Hids & _ & Htrace).
  cbn [up_ids params] in Hids. unfold ret in Hids. injection Hids as <- <-.
  eexists. split; [exact Htrace|]. cbn [bulk_refresh bulk_operations].
  split; [reflexivity|]. unfold indexed.
  cbn [up_indexName up_vectors up_metadata params].
  destruct (bulk_lines_at
              (fun index => ActionIndex indexName (nth_error ids index))
              (fun index vec =>
                 Document vec
                   (js_or (nth index match metadata with Some m => m | None => [] end
                               JUndefined) empty_object))
              vectors 0) as [Hlen Hnth].
  split; [exact Hlen|].
  intros i vec Hi. destruct (Hnth i vec Hi) as [H1 H2]. cbn [Nat.add] in H1, H2.
  split; [exact H1|]. rewrite H2. f_equal. f_equal.
  rewrite nth_or_default. unfold js_or, empty_object.
  destruct metadata as [entries|].
  - destruct (nth_error entries i) as [m|]; reflexivity.
  - destruct i; reflexivity.
Qed.

(** ** Runs on scripted clusters *)

Lemma errors_are_wrapped_witness :
  fst (attempted (scripted down) (Query nearest) fresh) = Some unreachable /\
  thrown_by (scripted down) (Query nearest) fresh =
  Some (Error ("Failed to query vectors from " ++ quoted "memory" ++ ": " ++
               "connect ECONNREFUSED")) /\
  logs (perform (scripted down) (Query nearest) fresh) =
  [mkLog Err ("Failed to query vectors from " ++ quoted "memory" ++ ": " ++
              "connect ECONNREFUSED") []].
Proof.
  split; [reflexivity|].
  pose proof (errors_are_wrapped (scripted down) (Query nearest) fresh) as H.
  change (attempted (scripted down) (Query nearest) fresh)
    with (Some unreachable, snd (attempted (scripted down) (Query nearest) fresh)) in H.
  cbv beta iota zeta in H. destruct H as [Hthrown Hworld].
  split; [exact Hthrown|]. rewrite Hworld. reflexivity.
Defined.

Lemma writes_are_refreshed_witness :
  validates_existing (DeleteVector "memory" "m1") = false /\
  exists calls,
    trace (perform (scripted down) (DeleteVector "memory" "m1") fresh) =
    (trace fresh ++ calls)%list /\
    Forall (fun c => refreshes c = true) calls.
Proof.
  split; [reflexivity|].
  exact (writes_are_refreshed (scripted down) (DeleteVector "memory" "m1") fresh eq_refl).
Defined.

Lemma read_operations_never_write_witness :
  reads_only (DescribeIndex "memory") = true /\
  exists calls,
    trace (perform (scripted with_memory_index) (DescribeIndex "memory") fresh) =
    (trace fresh ++ calls)%list /\
    Forall (fun c => is_write c = false) calls.
Proof.
  split; [reflexivity|].
  exact (read_operations_never_write (scripted with_memory_index) (DescribeIndex "memory")
           fresh eq_refl).
Defined.

Lemma operations_stay_on_their_index_witness :
  validates_existing (Upsert (batch [("a", well_formed); ("b", well_formed)])) = false /\
  index_of (Upsert (batch [("a", well_formed); ("b", well_formed)])) = Some "memory" /\
  exists calls,
    trace (perform (scripted down) (Upsert (batch [("a", well_formed); ("b", well_formed)]))
             fresh) = (trace fresh ++ calls)%list /\
    Forall (fun c => targets "memory" c = true) calls.
Proof.
  split; [reflexivity|]. split; [reflexivity|].
  exact (operations_stay_on_their_index (scripted down)
           (Upsert (batch [("a", well_formed); ("b", well_formed)])) "memory" fresh
           eq_refl eq_refl).
Defined.

Lemma flavor_free_operations_witness :
  needs_flavor (Query nearest) = false /\
  isServerless (perform (scripted down) (Query nearest) fresh) = isServerless fresh /\
  deploymentChecked (perform (scripted down) (Query nearest) fresh) = false.
Proof.
  split; [reflexivity|].
  destruct (flavor_free_operations (scripted down) (Query nearest) fresh eq_refl)
    as (H1 & H2 & _).
  split; [exact H1 | exact H2].
Defined.

Lemma one_request_per_operation_witness :
  one_request (DeleteIndex "memory") = true /\
  exists c,
    trace (perform (scripted down) (DeleteIndex "memory") fresh) = (trace fresh ++ [c])%list.
Proof.
  split; [reflexivity|].
  exact (one_request_per_operation (scripted down) (DeleteIndex "memory") fresh eq_refl).
Defined.

Lemma listIndexes_user_indices_witness :
  client_cat_indices (listing (map Some [".kibana"; "memory"; ".security"; "notes"]))
                     (external fresh) =
  (inr (map Some [".kibana"; "memory"; ".security"; "notes"]), tt) /\
  fst (listIndexes (listing (map Some [".kibana"; "memory"; ".security"; "notes"])) fresh) =
  inr ["memory"; "notes"].
Proof.
  split; [reflexivity|].
  exact (proj1 (listIndexes_user_indices
                  (listing (map Some [".kibana"; "memory"; ".security"; "notes"])) fresh)
               [".kibana"; "memory"; ".security"; "notes"] tt eq_refl).
Defined.

Lemma describeIndex_rejects_unconfigured_witness :
  detectServerless (scripted unmapped) fresh =
  (inr false, snd (detectServerless (scripted unmapped) fresh)) /\
  client_indices_getMapping (scripted unmapped) "memory"
    (external (snd (detectServerless (scripted unmapped) fresh))) =
  (inr [("memory", None)], tt) /\
  fst (describeIndex (scripted unmapped) "memory" fresh) =
  inl (Error ("Failed to describe index " ++ quoted "memory" ++ ": " ++
              ("Index " ++ quoted "memory" ++ " is not configured for vector search. " ++
               "Expected a 'vector' field of type 'dense_vector', but field not found"))).
Proof.
  split; [reflexivity|]. split; [reflexivity|].
  pose proof (describeIndex_rejects_unconfigured (scripted unmapped) "memory" fresh
                (snd (detectServerless (scripted unmapped) fresh)) false
                [("memory", None)] tt eq_refl eq_refl) as H.
  cbv zeta in H. destruct H as (H & _ & _).
  exact (proj1 (H eq_refl)).
Defined.

Lemma describeIndex_standard_count_witness :
  detectServerless (scripted with_memory_index) fresh =
  (inr false, snd (detectServerless (scripted with_memory_index) fresh)) /\
  (1536 <> 0)%Z /\
  fst (describeIndex (scripted with_memory_index) "memory" fresh) =
  inr {| stats_dimension := 1536; stats_metric := "cosine"; stats_count := 3 |}.
Proof.
  split; [reflexivity|]. split; [discriminate|].
  pose proof (describeIndex_standard_count (scripted with_memory_index) "memory" fresh
                (snd (detectServerless (scripted with_memory_index) fresh))
                [("memory",
                  Some {| vf_type := "dense_vector"; vf_dims := Some 1536%Z;
                          vf_index := Some true; vf_similarity := Some "cosine" |})]
                tt _ 1536%Z eq_refl eq_refl eq_refl eq_refl eq_refl
                ltac:(discriminate)) as H.
  cbv zeta in H. exact (proj1 H).
Defined.

Lemma describeIndex_serverless_count_witness :
  detectServerless (scripted serverless_memory) fresh =
  (inr true, snd (detectServerless (scripted serverless_memory) fresh)) /\
  (1536 <> 0)%Z /\
  fst (describeIndex (scripted serverless_memory) "memory" fresh) =
  inr {| stats_dimension := 1536; stats_metric := "dotproduct"; stats_count := 5 |}.
Proof.
  split; [reflexivity|]. split; [discriminate|].
  pose proof (describeIndex_serverless_count (scripted serverless_memory) "memory" fresh
                (snd (detectServerless (scripted serverless_memory) fresh))
                [("memory",
                  Some {| vf_type := "dense_vector"; vf_dims := Some 1536%Z;
                          vf_index := Some true; vf_similarity := Some "dot_product" |})]
                tt _ 1536%Z eq_refl eq_refl eq_refl eq_refl eq_refl
                ltac:(discriminate)) as H.
  cbv zeta in H. exact (proj1 H).
Defined.


Lemma createIndex_new_index_witness :
  client_indices_exists (scripted without_index) "memory" (external fresh) =
  (inr false, tt) /\
  (exists w2,
      detectServerless (scripted without_index)
        (after_call fresh (CallIndicesExists "memory") tt) = (inr false, w2)) /\
  fst (createIndex (scripted without_index)
         {| ci_indexName := "memory"; ci_dimension := 1536; ci_metric := Some "euclidean" |}
         fresh) = inr tt.
Proof.
  split; [reflexivity|]. split; [eexists; reflexivity|].
  destruct (createIndex_new_index (scripted without_index) "memory" 1536 (Some "euclidean")
              fresh _ tt false eq_refl eq_refl)
    as (similarity & warnings & _ & _ & H).
  exact H.
Defined.

Lemma filter_entries_accounted_witness :
  exists must warnings,
    buildElasticFilter
      (JObj [("thread", JStr "t1"); ("draft", JNull); ("score", JObj [("$near", js_of_Z 1)])])
      fresh = (inr (bool_must must), add_logs fresh warnings) /\
    length must + length warnings + 1 = 3 /\
    bool_must must = JObj [("bool", JObj [("must", JArr must)])].
Proof.
  destruct (filter_entries_accounted
              [("thread", JStr "t1"); ("draft", JNull); ("score", JObj [("$near", js_of_Z 1)])]
              fresh) as (must & warnings & Hrun & Hcount & _ & _ & Hsome).
  exists must, warnings. split; [exact Hrun|]. split; [exact Hcount|].
  apply Hsome. intros ->.
  rewrite buildElasticFilter_object in Hrun. discriminate.
Defined.

Lemma filter_operator_precedence_witness :
  own_prop "$gte" [("$lte", js_of_Z 5); ("$gte", js_of_Z 1)] = Some (js_of_Z 1) /\
  buildElasticFilter (JObj [("count", JObj [("$lte", js_of_Z 5); ("$gte", js_of_Z 1)])]) fresh =
  (inr (JObj [("bool", JObj [("must", JArr
     [range_clause (raw_field "count") "gte" (js_of_Z 1)])])]), fresh).
Proof.
  split; [reflexivity|].
  pose proof (filter_operator_precedence "count" [("$lte", js_of_Z 5); ("$gte", js_of_Z 1)]
                fresh) as H.
  cbv zeta in H. destruct H as (_ & _ & _ & _ & H & _).
  apply H; try reflexivity. intros vs. discriminate.
Defined.

Lemma filter_equality_on_keyword_witness :
  is_nullish (JArr [JStr "a"; JStr "b"]) = false /\
  buildElasticFilter (JObj [("tags", JArr [JStr "a"; JStr "b"])]) fresh =
  (inr (JObj [("bool", JObj [("must", JArr
     [JObj [("term", JObj [("metadata.tags.keyword", JArr [JStr "a"; JStr "b"])])]])])]),
   fresh).
Proof.
  split; [reflexivity|].
  pose proof (filter_equality_on_keyword "tags" fresh) as H.
  cbv zeta in H. destruct H as (H & _).
  exact (H (JArr [JStr "a"; JStr "b"]) eq_refl I).
Defined.

Lemma detection_classifies_witness :
  deploymentChecked fresh = false /\
  isServerless fresh = None /\
  (exists info,
      client_info (scripted serverless_memory) (external fresh) = (inr info, tt)) /\
  exists w',
    detectServerless (scripted serverless_memory) fresh = (inr true, w') /\
    trace w' = [CallInfo].
Proof.
  split; [reflexivity|]. split; [reflexivity|]. split; [eexists; reflexivity|].
  destruct (detection_classifies (scripted serverless_memory) fresh _ tt
              eq_refl eq_refl eq_refl) as (detected & w' & Hrun & _ & _ & Htrace & Hd).
  exists w'. split; [|exact Htrace].
  assert (detected = true) as <-; [|exact Hrun].
  apply Hd. left. reflexivity.
Defined.

Lemma query_search_request_witness :
  qp_topK {| qp_indexName := "memory"; qp_queryVector := []; qp_topK := None;
             qp_filter := JUndefined; qp_includeVector := Some true |} = None /\
  exists request knn,
    trace (snd (query (scripted down)
                  {| qp_indexName := "memory"; qp_queryVector := []; qp_topK := None;
                     qp_filter := JUndefined; qp_includeVector := Some true |} fresh)) =
    [CallSearch request] /\
    sr_source request = Some ["metadata"; "vector"] /\
    sr_knn request = Some knn /\
    knn_k knn = num_of_Z 10 /\ knn_num_candidates knn = num_of_Z 100.
Proof.
  split; [reflexivity|].
  destruct (query_search_request (scripted down)
              {| qp_indexName := "memory"; qp_queryVector := []; qp_topK := None;
                 qp_filter := JUndefined; qp_includeVector := Some true |} fresh)
    as (request & knn & Htrace & _ & _ & Hsource & _ & Hknn & _ & _ & Hdefault).
  exists request, knn. split; [exact Htrace|]. split; [exact Hsource|].
  split; [exact Hknn|]. exact (Hdefault eq_refl).
Defined.

Lemma upsert_distinct_ids_witness :
  NoDup ["a"; "b"; "c"] /\
  fst (upsert (scripted (answering_bulk
                           [bulk_item "a" false; bulk_item "b" true; bulk_item "c" false]))
         (batch [("a", well_formed); ("b", too_short); ("c", well_formed)]) fresh) =
  inr ["a"; "c"].
Proof.
  assert (Hnd : NoDup ["a"; "b"; "c"]).
  { repeat constructor; cbn; intuition discriminate. }
  split; [exact Hnd|].
  pose proof (upsert_distinct_ids
                (scripted (answering_bulk
                             [bulk_item "a" false; bulk_item "b" true; bulk_item "c" false]))
                "memory" [well_formed; too_short; well_formed] None ["a"; "b"; "c"] fresh
                {| bulk_errors := true;
                   bulk_items := [bulk_item "a" false; bulk_item "b" true; bulk_item "c" false] |})
    as H.
  cbv zeta in H.
  destruct (H Hnd eq_refl (fun _ => eq_refl) eq_refl eq_refl) as (_ & Hpartial & _).
  apply Hpartial. cbn. lia.
Defined.

Lemma upsert_generated_ids_witness :
  (forall e, includes "_" (fst (random_suffix (scripted down) e)) = false) /\
  exists ids,
    fst (map_M (generate_id (scripted down)) (seq 0 2) fresh) = inr ids /\
    length ids = 2 /\ NoDup ids.
Proof.
  assert (Hfree : forall e, includes "_" (fst (random_suffix (scripted down) e)) = false)
    by (intros e; reflexivity).
  split; [exact Hfree|].
  destruct (upsert_generated_ids (scripted down) "memory" [well_formed; well_formed] None
              fresh Hfree) as (ids & w' & Hrun & _ & Hlen & Hnd & _).
  exists ids. split; [|split; [exact Hlen | exact Hnd]].
  cbn [length] in Hrun. now rewrite Hrun.
Defined.

Lemma upsert_error_sample_witness :
  bulk_errors
    {| bulk_errors := true;
       bulk_items := [bulk_item "a" true; bulk_item "b" true; bulk_item "c" true;
                      bulk_item "d" true; bulk_item "e" false] |} = true /\
  exists sample,
    length sample = 3 /\
    In (mkLog ConsoleError ("Failed to upsert 4/5 vectors" ++ ". Sample errors:")
          [JArr sample])
       (logs (snd (upsert
                     (scripted (answering_bulk
                                  [bulk_item "a" true; bulk_item "b" true; bulk_item "c" true;
                                   bulk_item "d" true; bulk_item "e" false]))
                     (batch [("a", too_short); ("b", too_short); ("c", too_short);
                             ("d", too_short); ("e", well_formed)]) fresh))).
Proof.
  split; [reflexivity|].
  pose proof (upsert_error_sample
                (scripted (answering_bulk
                             [bulk_item "a" true; bulk_item "b" true; bulk_item "c" true;
                              bulk_item "d" true; bulk_item "e" false]))
                "memory" [too_short; too_short; too_short; too_short; well_formed] None
                ["a"; "b"; "c"; "d"; "e"] fresh
                {| bulk_errors := true;
                   bulk_items := [bulk_item "a" true; bulk_item "b" true; bulk_item "c" true;
                                  bulk_item "d" true; bulk_item "e" false] |}) as H.
  cbv zeta in H.
  destruct (H (fun _ => eq_refl) eq_refl) as (sample & _ & Hlen & Hconsole & _).
  exists sample. split; [exact Hlen | exact Hconsole].
Defined.

Lemma upsert_bulk_request_witness :
  nth_error [well_formed; too_short] 1 = Some too_short /\
  exists request,
    trace (snd (upsert (scripted down) (batch [("a", well_formed); ("b", too_short)]) fresh)) =
    [CallBulk request] /\
    nth_error (bulk_operations request) 2 = Some (ActionIndex "memory" (Some "b")) /\
    nth_error (bulk_operations request) 3 = Some (Document too_short (JObj [])).
Proof.
  split; [reflexivity|].
  destruct (upsert_bulk_request (scripted down) "memory" [well_formed; too_short] None
              ["a"; "b"] fresh) as (request & Htrace & _ & _ & Hnth).
  exists request. split; [exact Htrace|].
  exact (Hnth 1 too_short eq_refl).
Defined.
